(** * bookwyrm: export of a user account (bookwyrm/models/bookwyrm_export_job.py)

    A shallow embedding of [start_export_task], [tar_export], [json_export]
    and [get_books_for_user].  The relational store is a record of tables
    (lists of rows, in the order the database returns them); querysets are
    the lists of rows they evaluate to; Python dictionaries are association
    lists in insertion order; exceptions are an error result. *)

From stdpp Require Import base decidable option list strings gmap pretty.
From Stdlib Require Import ZArith Ascii String.
From Stdlib.Strings Require Import Byte.

Open Scope string_scope.
Open Scope Z_scope.

(** ** Python values and dictionaries *)

(** A column value, as [values()] hands it to the encoder. *)
Inductive scalar :=
  | SNone
  | SBool (b : bool)
  | SInt (n : Z)
  | SStr (s : string).

#[global] Instance scalar_eq_dec : EqDecision scalar.
Proof. solve_decision. Defined.

(** The nested structures [json_export] builds: scalars, lists, dicts. *)
#[local] Set Warnings "-register-all".
Inductive value :=
  | VAtom (a : scalar)
  | VList (l : list value)
  | VDict (d : list (string * value)).

Abbreviation dict := (list (string * value)).

Definition VStr (s : string) : value := VAtom (SStr s).
Definition VInt (n : Z) : value := VAtom (SInt n).

(** [d[k]]: the first binding of [k]. *)
Fixpoint dict_get (k : string) (d : dict) : option value :=
  match d with
  | [] => None
  | (k', v) :: d' => if decide (k' = k) then Some v else dict_get k d'
  end.

(** [d[k] = v]: an existing key keeps its position, a new key goes last. *)
Fixpoint dict_set (k : string) (v : value) (d : dict) : dict :=
  match d with
  | [] => [(k, v)]
  | (k', v') :: d' =>
      if decide (k' = k) then (k, v) :: d' else (k', v') :: dict_set k v d'
  end.

Definition dict_keys (d : dict) : list string := d.*1.

(** A row of [values()]: the columns of the row, in their order. *)
Definition row_dict (cols : list (string * scalar)) : dict :=
  (λ kv, (kv.1, VAtom kv.2)) <$> cols.

(** ** The encoder: [DjangoJSONEncoder().encode] with the defaults of
    [json.JSONEncoder] (ASCII only output, separators [", "] and [": "]) *)

Definition hex_digit (n : N) : ascii :=
  ascii_of_N (if (n <? 10)%N then 48 + n else 87 + n)%N.

Definition escape_char (c : ascii) : string :=
  let n := N_of_ascii c in
  if decide (n = 34%N) then String (ascii_of_N 92) (String c EmptyString)
  else if decide (n = 92%N) then "\\"
  else if decide (n = 10%N) then "\n"
  else if decide (n = 13%N) then "\r"
  else if decide (n = 9%N) then "\t"
  else if decide (n = 8%N) then "\b"
  else if decide (n = 12%N) then "\f"
  else if ((32 <=? n) && (n <=? 126))%N then String c EmptyString
  else "\u00" +:+ String (hex_digit (n / 16)) (String (hex_digit (n mod 16)) EmptyString).

Fixpoint escape_string (s : string) : string :=
  match s with
  | EmptyString => EmptyString
  | String c s' => escape_char c +:+ escape_string s'
  end.

Definition encode_str (s : string) : string :=
  String (ascii_of_N 34) (escape_string s) +:+ String (ascii_of_N 34) EmptyString.

Definition encode_scalar (a : scalar) : string :=
  match a with
  | SNone => "null"
  | SBool true => "true"
  | SBool false => "false"
  | SInt n => pretty n
  | SStr s => encode_str s
  end.

Fixpoint join (sep : string) (l : list string) : string :=
  match l with
  | [] => EmptyString
  | [x] => x
  | x :: l' => x +:+ sep +:+ join sep l'
  end.

Fixpoint encode (v : value) : string :=
  match v with
  | VAtom a => encode_scalar a
  | VList l => "[" +:+ join ", " (map encode l) +:+ "]"
  | VDict d =>
      "{" +:+ join ", " (map (λ kv, encode_str kv.1 +:+ ": " +:+ encode kv.2) d) +:+ "}"
  end.

(** [str.encode("utf-8")], a character being a code point below 256. *)
Definition utf8_char (c : ascii) : list byte :=
  let n := N_of_ascii c in
  if (n <? 128)%N then [byte_of_ascii c]
  else [byte_of_ascii (ascii_of_N (192 + n / 64)); byte_of_ascii (ascii_of_N (128 + n mod 64))].

Fixpoint utf8 (s : string) : list byte :=
  match s with
  | EmptyString => []
  | String c s' => utf8_char c ++ utf8 s'
  end.

(** ** Exceptions *)

Inductive exn :=
  | DoesNotExist      (* Model.DoesNotExist *)
  | DatabaseError     (* django.db.DatabaseError and the like *)
  | IndexError
  | AttributeError
  | OSError.          (* a failed write to the archive or to the storage *)

Inductive result (A : Type) :=
  | Ok (a : A)
  | Raise (e : exn).
Arguments Ok {A} a.
Arguments Raise {A} e.

#[global] Instance result_ret : MRet result := λ A a, Ok a.
#[global] Instance result_bind : MBind result := λ A B f m,
  match m with Ok a => f a | Raise e => Raise e end.

Definition returns {A} (m : result A) : Prop := ∃ a, m = Ok a.

(** ** The models the export reads (bookwyrm.models) *)

Abbreviation columns := (list (string * scalar)).

(** An image field of a row: [name] is the stored path, [url] its address. *)
Record ImageFieldFile := {
  img_name : string;
  img_url : string;
}.

(** [bool(field_file)] is [bool(field_file.name)]. *)
Definition truthy (f : ImageFieldFile) : Prop := img_name f ≠ EmptyString.

Record User := {
  user_id : Z;
  user_remote_id : string;
  username : string;
  name : string;
  summary : string;
  manually_approves_followers : bool;
  hide_follows : bool;
  show_goal : bool;
  show_suggested_users : bool;
  discoverable : bool;
  preferred_timezone : string;
  default_post_privacy : string;
  avatar : ImageFieldFile;
}.

Record AnnualGoal := {
  goal_user : Z;
  goal : Z;
  year : Z;
  privacy : string;
}.

(** [Book] is the parent table of [Edition] (multi-table inheritance): an
    edition is its row of the child table joined with its [Book] row. *)
Record Book := {
  book_id : Z;
  cover : ImageFieldFile;
  book_cols : columns;
}.

Record EditionRow := {
  book_ptr_id : Z;
  edition_cols : columns;
}.

Record Edition := {
  edition_book : Book;
  edition_row : EditionRow;
}.

Definition edition_id (e : Edition) : Z := book_id (edition_book e).

Record Author := {
  author_id : Z;
  author_cols : columns;
}.

Record ReadThrough := {
  readthrough_id : Z;
  readthrough_user : Z;
  readthrough_book : Z;
  readthrough_cols : columns;
}.

Record Shelf := {
  shelf_id : Z;
  shelf_user : Z;
  identifier : string;
  shelf_cols : columns;
}.

Record ShelfBook := {
  shelfbook_id : Z;
  shelfbook_user : Z;
  shelfbook_book : Z;
  shelfbook_shelf : Z;
  shelfbook_cols : columns;
}.

(** The model [List]. *)
Record BookList := {
  list_id : Z;
  list_user : Z;
  list_name : string;
  list_remote_id : string;
  list_cols : columns;
}.

Record ListItem := {
  listitem_id : Z;
  listitem_book_list : Z;
  listitem_book : Z;
  listitem_cols : columns;
}.

(** [Review], [Comment] and [Quotation]: a status of a user about a book. *)
Record BookStatus := {
  status_id : Z;
  status_user : Z;
  status_book : Z;
  status_cols : columns;
}.

(** [UserFollows] and [UserBlocks]: [user_subject] follows (blocks)
    [user_object]. *)
Record UserRelationship := {
  relationship_id : Z;
  user_subject : Z;
  user_object : Z;
}.

#[global] Instance ImageFieldFile_eq_dec : EqDecision ImageFieldFile.
Proof. solve_decision. Defined.
#[global] Instance User_eq_dec : EqDecision User.
Proof. solve_decision. Defined.
#[global] Instance AnnualGoal_eq_dec : EqDecision AnnualGoal.
Proof. solve_decision. Defined.
#[global] Instance Book_eq_dec : EqDecision Book.
Proof. solve_decision. Defined.
#[global] Instance EditionRow_eq_dec : EqDecision EditionRow.
Proof. solve_decision. Defined.
#[global] Instance Edition_eq_dec : EqDecision Edition.
Proof. solve_decision. Defined.
#[global] Instance Author_eq_dec : EqDecision Author.
Proof. solve_decision. Defined.
#[global] Instance ReadThrough_eq_dec : EqDecision ReadThrough.
Proof. solve_decision. Defined.
#[global] Instance Shelf_eq_dec : EqDecision Shelf.
Proof. solve_decision. Defined.
#[global] Instance ShelfBook_eq_dec : EqDecision ShelfBook.
Proof. solve_decision. Defined.
#[global] Instance BookList_eq_dec : EqDecision BookList.
Proof. solve_decision. Defined.
#[global] Instance ListItem_eq_dec : EqDecision ListItem.
Proof. solve_decision. Defined.
#[global] Instance BookStatus_eq_dec : EqDecision BookStatus.
Proof. solve_decision. Defined.
#[global] Instance UserRelationship_eq_dec : EqDecision UserRelationship.
Proof. solve_decision. Defined.

(** The tables, each in the order the database returns its rows.  The two
    many-to-many tables without a model of their own hold pairs of keys. *)
Record Database := {
  users : list User;
  annualgoals : list AnnualGoal;
  readthroughs : list ReadThrough;
  books : list Book;
  editions : list EditionRow;
  authors : list Author;
  book_authors : list (Z * Z);       (* book_id, author_id *)
  shelves : list Shelf;
  shelfbooks : list ShelfBook;
  lists : list BookList;
  listitems : list ListItem;
  reviews : list BookStatus;
  comments : list BookStatus;
  quotations : list BookStatus;
  userfollows : list UserRelationship;
  userblocks : list UserRelationship;
  user_saved_lists : list (Z * Z);   (* user_id, list_id *)
}.

(** ** Querysets *)

(** [.distinct()] *)
Definition distinct {A} `{EqDecision A} (rows : list A) : list A :=
  remove_dups rows.

(** The rows a LEFT OUTER JOIN pairs with one row of the left table: the
    matching rows, or a single NULL row when there is none. *)
Definition left_outer {A} (rows : list A) : list (option A) :=
  match rows with
  | [] => [None]
  | _ => Some <$> rows
  end.

(** A column of a joined row, NULL when the row is. *)
Definition column {A} (f : A → Z) (row : option A) : option Z := f <$> row.

(** [.first()] of an unordered queryset: ORDER BY pk LIMIT 1. *)
Definition first {A} (pk : A → Z) (rows : list A) : option A :=
  foldr (λ x acc,
    match acc with
    | Some y => if decide (pk x ≤ pk y) then Some x else Some y
    | None => Some x
    end) None rows.

(** [queryset[0]] *)
Definition index0 {A} (rows : list A) : result A :=
  match rows with
  | [] => Raise IndexError
  | x :: _ => Ok x
  end.

(** [.values()] of each model: the concrete columns, the parent's first. *)
Definition Book_values (b : Book) : columns :=
  ("id", SInt (book_id b)) :: ("cover", SStr (img_name (cover b))) :: book_cols b.

Definition Edition_values (e : Edition) : columns :=
  Book_values (edition_book e)
  ++ ("book_ptr_id", SInt (book_ptr_id (edition_row e))) :: edition_cols (edition_row e).

Definition Author_values (a : Author) : columns :=
  ("id", SInt (author_id a)) :: author_cols a.

Definition ReadThrough_values (r : ReadThrough) : columns :=
  ("id", SInt (readthrough_id r)) :: ("user_id", SInt (readthrough_user r))
  :: ("book_id", SInt (readthrough_book r)) :: readthrough_cols r.

Definition Shelf_values (s : Shelf) : columns :=
  ("id", SInt (shelf_id s)) :: ("user_id", SInt (shelf_user s))
  :: ("identifier", SStr (identifier s)) :: shelf_cols s.

Definition ShelfBook_values (sb : ShelfBook) : columns :=
  ("id", SInt (shelfbook_id sb)) :: ("user_id", SInt (shelfbook_user sb))
  :: ("book_id", SInt (shelfbook_book sb)) :: ("shelf_id", SInt (shelfbook_shelf sb))
  :: shelfbook_cols sb.

Definition List_values (l : BookList) : columns :=
  ("id", SInt (list_id l)) :: ("user_id", SInt (list_user l))
  :: ("name", SStr (list_name l)) :: ("remote_id", SStr (list_remote_id l))
  :: list_cols l.

Definition ListItem_values (i : ListItem) : columns :=
  ("id", SInt (listitem_id i)) :: ("book_list_id", SInt (listitem_book_list i))
  :: ("book_id", SInt (listitem_book i)) :: listitem_cols i.

Definition BookStatus_values (s : BookStatus) : columns :=
  ("id", SInt (status_id s)) :: ("user_id", SInt (status_user s))
  :: ("book_id", SInt (status_book s)) :: status_cols s.

(** [Edition.objects]: the child rows joined with their parent rows. *)
Definition Edition_objects (db : Database) : list Edition :=
  r ← editions db;
  b ← filter (λ b, book_id b = book_ptr_id r) (books db);
  [{| edition_book := b; edition_row := r |}].

(** ** What can go wrong outside the code

    The database, the archive and the storage can raise.  A world fixes the
    tables and which of these operations raise during one run. *)
Record Faults := {
  goals_raise : option nat;   (* the iterator over the reading goals raises
                                 when asked for the item of this index *)
  readthroughs_raise : bool;  (* the guarded read-through query raises *)
  query_raise : bool;         (* an unguarded query raises *)
  tar_raise : bool;           (* writing to the archive raises *)
  save_raise : bool;          (* saving the job raises *)
}.

(** ** Files, archives and the job table *)

(** Modelled from the spec: [BookwyrmTarFile] (bookwyrm.utils.tar) is not
    part of this file; the spec describes its result as a compressed archive
    containing a JSON-like payload and image files.  An archive is the list
    of the members added to it: [write_bytes] adds the bytes it is given,
    [add_image] the image it is given, under the file name asked for. *)
Inductive member :=
  | write_bytes (data : list byte)
  | add_image (image : ImageFieldFile) (filename : option string).

(** A [ContentFile]: its name and what has been written to it. *)
Record ContentFile := {
  file_name : string;
  file_content : list member;
}.

(** A row of [BookwyrmExportJob] (the fields of [ParentJob] this file reads
    or writes, and [export_data]). *)
Record BookwyrmExportJob := {
  job_user : Z;
  complete : bool;
  status : string;
  export_data : option ContentFile;
}.

Definition with_export_data (f : option ContentFile) (job : BookwyrmExportJob)
  : BookwyrmExportJob :=
  {| job_user := job_user job; complete := complete job; status := status job;
     export_data := f |}.

Definition with_status (s : string) (job : BookwyrmExportJob) : BookwyrmExportJob :=
  {| job_user := job_user job; complete := complete job; status := s;
     export_data := export_data job |}.

(** What a run leaves behind: rows written, statuses set, errors logged. *)
Inductive event :=
  | Saved (job_id : Z) (update_fields : list string)
  | StatusSet (job_id : Z) (status : string)
  | Logged (job_id : Z) (err : exn).

Record State := {
  jobs : gmap Z BookwyrmExportJob;   (* the job table, by primary key *)
  trace : list event;                (* oldest first *)
}.

Record World := {
  db : Database;
  faults : Faults;
  uuid4 : string;             (* the value [uuid4()] draws *)
  ui_update : BookwyrmExportJob → BookwyrmExportJob;
                              (* what the UI does to the row of the job
                                 while the export runs (it can stop it) *)
}.

Definition no_faults : Faults :=
  {| goals_raise := None; readthroughs_raise := false; query_raise := false;
     tar_raise := false; save_raise := false |}.

(** Evaluating a queryset: the rows, unless the database raises. *)
Definition evaluate {A} (fault : bool) (rows : list A) : result (list A) :=
  if fault then Raise DatabaseError else Ok rows.

#[global] Instance result_fmap : FMap result := λ A B f m,
  match m with Ok a => Ok (f a) | Raise e => Raise e end.

Section ExportJob.

(** [bookwyrm.settings.DOMAIN] *)
Variable DOMAIN : string.

(** Modelled from the spec: [Edition.viewer_aware_objects] is declared with
    the [Edition] model, outside this file; the spec only calls what it
    returns the viewer-aware editions.  It is a queryset over
    [Edition.objects]; which editions it keeps for a viewer is left open. *)
Variable viewer_aware : User → Edition → bool.

Definition viewer_aware_objects (db : Database) (viewer : User) : list Edition :=
  filter (λ e, viewer_aware viewer e) (Edition_objects db).

(** *** get_books_for_user *)

(** The lookups [shelves__user], [readthrough__user], ... of the filter:
    the [user_id] column of each row the edition is joined with, NULL where
    the LEFT OUTER JOIN finds no row. *)
Definition shelves__user (db : Database) (e : Edition) : list (option Z) :=
  sb ← left_outer (filter (λ sb, shelfbook_book sb = edition_id e) (shelfbooks db));
  match sb return list (option Z) with
  | None => [None]
  | Some sb =>
      column shelf_user
        <$> left_outer (filter (λ s, shelf_id s = shelfbook_shelf sb) (shelves db))
  end.

Definition readthrough__user (db : Database) (e : Edition) : list (option Z) :=
  column readthrough_user
    <$> left_outer (filter (λ r, readthrough_book r = edition_id e) (readthroughs db)).

Definition status__user (table : list BookStatus) (e : Edition) : list (option Z) :=
  column status_user <$> left_outer (filter (λ s, status_book s = edition_id e) table).

Definition review__user (db : Database) := status__user (reviews db).
Definition comment__user (db : Database) := status__user (comments db).
Definition quotation__user (db : Database) := status__user (quotations db).

Definition list__user (db : Database) (e : Edition) : list (option Z) :=
  li ← left_outer (filter (λ li, listitem_book li = edition_id e) (listitems db));
  match li return list (option Z) with
  | None => [None]
  | Some li =>
      column list_user
        <$> left_outer (filter (λ l, list_id l = listitem_book_list li) (lists db))
  end.

Definition get_books_for_user (db : Database) (user : User)
  : list Edition * list Book :=
  let all_books := viewer_aware_objects db user in
  let editions :=
    distinct (
      e ← all_books;
      s ← shelves__user db e;
      r ← readthrough__user db e;
      v ← review__user db e;
      l ← list__user db e;
      c ← comment__user db e;
      q ← quotation__user db e;
      if decide (s = Some (user_id user)
                 ∨ r = Some (user_id user)
                 ∨ v = Some (user_id user)
                 ∨ l = Some (user_id user)
                 ∨ c = Some (user_id user)
                 ∨ q = Some (user_id user))
      then [e] else []) in
  let books :=
    distinct (filter (λ b, book_id b ∈ edition_id <$> editions) (books db)) in
  (editions, books).

(** *** json_export *)

Definition vals : list string :=
  [ "username"; "name"; "summary"; "manually_approves_followers"; "hide_follows";
    "show_goal"; "show_suggested_users"; "discoverable"; "preferred_timezone";
    "default_post_privacy" ].

(** [getattr(user, k)] for the attributes the export reads. *)
Definition User_getattr (user : User) (k : string) : scalar :=
  if decide (k = "username") then SStr (username user)
  else if decide (k = "name") then SStr (name user)
  else if decide (k = "summary") then SStr (summary user)
  else if decide (k = "manually_approves_followers")
       then SBool (manually_approves_followers user)
  else if decide (k = "hide_follows") then SBool (hide_follows user)
  else if decide (k = "show_goal") then SBool (show_goal user)
  else if decide (k = "show_suggested_users") then SBool (show_suggested_users user)
  else if decide (k = "discoverable") then SBool (discoverable user)
  else if decide (k = "preferred_timezone") then SStr (preferred_timezone user)
  else if decide (k = "default_post_privacy") then SStr (default_post_privacy user)
  else SNone.

Definition exported_user (user : User) : dict :=
  let exported_user :=
    foldl (λ d k, dict_set k (VAtom (User_getattr user k)) d) [] vals in
  if decide (truthy (avatar user))
  then dict_set "avatar"
         (VStr ("https://" +:+ DOMAIN +:+ img_url (avatar user))) exported_user
  else exported_user.

Definition goal_entry (g : AnnualGoal) : value :=
  VDict [("goal", VInt (goal g)); ("year", VInt (year g)); ("privacy", VStr (privacy g))].

(** [for goal in reading_goals: goals_list.append(...)]: the list as the
    loop leaves it, and whether the loop ended or raised. *)
Fixpoint goals_loop (fault : option nat) (reading_goals : list AnnualGoal)
    (goals_list : list value) {struct reading_goals}
  : list value * result unit :=
  match fault with
  | Some O => (goals_list, Raise DatabaseError)
  | _ =>
      match reading_goals with
      | [] => (goals_list, Ok ())
      | g :: rest =>
          goals_loop (Nat.pred <$> fault) rest (goals_list ++ [goal_entry g])
      end
  end.

(** The local [readthroughs] after the second [try]. *)
Definition json_export_readthroughs (w : World) (user : User) : list columns :=
  match evaluate (readthroughs_raise (faults w))
          (ReadThrough_values
             <$> distinct (filter (λ r, readthrough_user r = user_id user)
                                  (readthroughs (db w)))) with
  | Ok readthroughs => readthroughs
  | Raise _ => []
  end.

(** [edition.first().authors.all()] *)
Definition Edition_authors (db : Database) (e : Edition) : list Author :=
  ba ← filter (λ ba, ba.1 = edition_id e) (book_authors db);
  filter (λ a, author_id a = ba.2) (authors db).

Definition rows_value (rows : list columns) : value :=
  VList ((λ r, VDict (row_dict r)) <$> rows).

(** One turn of [for book in books.values()]: [b] is the row behind the
    dictionary [book], whose key ["id"] holds [book_id b]. *)
Definition book_entry (db : Database) (user : User) (editions : list Edition)
    (b : Book) : result dict :=
  let book := row_dict (Book_values b) in
  let id := book_id b in
  let edition := filter (λ e, edition_id e = id) editions in
  edition_0 ← index0 edition;
  let book := dict_set "edition" (VDict (row_dict (Edition_values edition_0))) book in
  (* authors *)
  edition_first ← match first edition_id edition with
                   | Some e => Ok e
                   | None => Raise AttributeError
                   end;
  let book :=
    dict_set "authors" (rows_value (Author_values <$> Edition_authors db edition_first))
      book in
  (* readthroughs *)
  let book_readthroughs :=
    distinct (filter (λ r, readthrough_user r = user_id user ∧ readthrough_book r = id)
                     (readthroughs db)) in
  let book :=
    dict_set "readthroughs" (rows_value (ReadThrough_values <$> book_readthroughs)) book in
  (* shelves *)
  let shelf_books :=
    distinct (filter (λ sb, shelfbook_user sb = user_id user ∧ shelfbook_book sb = id)
                     (shelfbooks db)) in
  let shelves_from_books :=
    s ← shelves db;
    sb ← filter (λ sb, shelfbook_shelf sb = shelf_id s) (shelfbooks db);
    if decide (shelfbook_id sb ∈ shelfbook_id <$> shelf_books
               ∧ shelf_user s = user_id user)
    then [s] else [] in
  let book := dict_set "shelves" (rows_value (Shelf_values <$> shelves_from_books)) book in
  let book :=
    dict_set "shelf_books"
      (VDict
         (foldl (λ d shelf,
            let shelf_contents :=
              distinct (filter (λ sb, shelfbook_user sb = user_id user
                                      ∧ shelfbook_shelf sb = shelf_id shelf)
                               (shelfbooks db)) in
            dict_set (identifier shelf)
              (rows_value (ShelfBook_values <$> shelf_contents)) d)
          [] shelves_from_books))
      book in
  (* book lists *)
  let book_lists :=
    distinct (
      l ← lists db;
      li ← filter (λ li, listitem_book_list li = list_id l) (listitems db);
      if decide (listitem_book li ∈ [id] ∧ list_user l = user_id user)
      then [l] else []) in
  let book := dict_set "lists" (rows_value (List_values <$> book_lists)) book in
  let book :=
    dict_set "list_items"
      (VDict
         (foldl (λ d blist,
            let list_items :=
              distinct (filter (λ li, listitem_book_list li = list_id blist)
                               (listitems db)) in
            dict_set (list_name blist) (rows_value (ListItem_values <$> list_items)) d)
          [] book_lists))
      book in
  (* reviews *)
  let reviews :=
    distinct (filter (λ s, status_user s = user_id user ∧ status_book s = id)
                     (reviews db)) in
  let book := dict_set "reviews" (rows_value (BookStatus_values <$> reviews)) book in
  (* comments *)
  let comments :=
    distinct (filter (λ s, status_user s = user_id user ∧ status_book s = id)
                     (comments db)) in
  let book := dict_set "comments" (rows_value (BookStatus_values <$> comments)) book in
  (* quotes *)
  let quotes :=
    distinct (filter (λ s, status_user s = user_id user ∧ status_book s = id)
                     (quotations db)) in
  let book := dict_set "quotes" (rows_value (BookStatus_values <$> quotes)) book in
  Ok book.

(** [user.saved_lists.all()] *)
Definition User_saved_lists (db : Database) (user : User) : list BookList :=
  p ← filter (λ p, p.1 = user_id user) (user_saved_lists db);
  filter (λ l, list_id l = p.2) (lists db).

(** [User.objects.filter(<relation>_user_object__in=rels).distinct()] *)
Definition users_object_in (db : Database) (table rels : list UserRelationship)
  : list User :=
  distinct (
    u ← users db;
    r ← filter (λ r, user_object r = user_id u) table;
    if decide (relationship_id r ∈ relationship_id <$> rels) then [u] else []).

(** The dictionary [data] that [json_export] hands to the encoder. *)
Definition json_export_data (w : World) (user : User) : result dict :=
  (* user *)
  let exported_user := exported_user user in
  (* reading goals *)
  let reading_goals :=
    distinct (filter (λ g, goal_user g = user_id user) (annualgoals (db w))) in
  let goals_list := (goals_loop (goals_raise (faults w)) reading_goals []).1 in
  let readthroughs := json_export_readthroughs w user in
  (* books *)
  let '(editions, books) := get_books_for_user (db w) user in
  books_values ← evaluate (query_raise (faults w)) books;
  final_books ← mapM (book_entry (db w) user editions) books_values;
  (* saved book lists *)
  let saved_lists :=
    distinct (filter (λ l, list_id l ∈ list_id <$> User_saved_lists (db w) user)
                     (lists (db w))) in
  let saved_lists := list_remote_id <$> saved_lists in
  (* follows *)
  let follows :=
    distinct (filter (λ f, user_subject f = user_id user) (userfollows (db w))) in
  let following := users_object_in (db w) (userfollows (db w)) follows in
  let follows := user_remote_id <$> following in
  (* blocks *)
  let blocks :=
    distinct (filter (λ f, user_subject f = user_id user) (userblocks (db w))) in
  let blocking := users_object_in (db w) (userblocks (db w)) blocks in
  let blocks := user_remote_id <$> blocking in
  Ok [ ("user", VDict exported_user);
       ("goals", VList goals_list);
       ("books", VList (VDict <$> final_books));
       ("saved_lists", VList (VStr <$> saved_lists));
       ("follows", VList (VStr <$> follows));
       ("blocked_users", VList (VStr <$> blocks)) ].

Definition json_export (w : World) (user : User) : result string :=
  (λ data, encode (VDict data)) <$> json_export_data w user.

(** *** tar_export *)

(** The file object is written in place: the result is the file as the
    call leaves it, also when it raises. *)
Definition tar_export (w : World) (json_data : string) (user : User)
    (file : ContentFile) : ContentFile * result unit :=
  let written tar := {| file_name := file_name file; file_content := tar |} in
  if tar_raise (faults w) then (file, Raise OSError)
  else
    let tar := [write_bytes (utf8 json_data)] in
    (* Add avatar image if present *)
    let tar :=
      if decide (truthy (avatar user))
      then (tar ++ [add_image (avatar user) (Some "avatar")])%list
      else tar in
    let '(editions, books) := get_books_for_user (db w) user in
    match evaluate (query_raise (faults w)) editions with
    | Raise e => (written tar, Raise e)
    | Ok editions =>
        let tar :=
          foldl (λ tar book,
            if decide (truthy (cover (edition_book book)))
            then (tar ++ [add_image (cover (edition_book book)) None])%list
            else tar) tar editions in
        (written tar, Ok ())
    end.

(** *** start_export_task *)

(** [job.save(update_fields=...)]: the listed fields of the row take the
    values of the object, the others stay as they are in the table. *)
Definition save (update_fields : list string) (job_id : Z)
    (job : BookwyrmExportJob) (st : State) : State :=
  let write row :=
    {| job_user := if decide ("user" ∈ update_fields) then job_user job else job_user row;
       complete := if decide ("complete" ∈ update_fields) then complete job else complete row;
       status := if decide ("status" ∈ update_fields) then status job else status row;
       export_data := if decide ("export_data" ∈ update_fields)
                      then export_data job else export_data row |} in
  {| jobs := alter write job_id (jobs st);
     trace := (trace st ++ [Saved job_id update_fields])%list |}.

Definition record (e : event) (st : State) : State :=
  {| jobs := jobs st; trace := (trace st ++ [e])%list |}.

(** Modelled from the spec: [set_status] is a method of [ParentJob]
    (bookwyrm.models.job), not part of this file; the spec says that it
    marks the job with the status it is given ("mark the job failed", "a
    single job-status side effect").  The object and its row take the
    status. *)
Definition set_status (status : string) (job_id : Z) (job : BookwyrmExportJob)
    (st : State) : BookwyrmExportJob * State :=
  let job := with_status status job in
  (job, save ["status"] job_id job (record (StatusSet job_id status) st)).

(** [job.user]: the row of the user the job points to. *)
Definition Job_user (db : Database) (job : BookwyrmExportJob) : result User :=
  match filter (λ u, user_id u = job_user job) (users db) with
  | [] => Raise DoesNotExist
  | u :: _ => Ok u
  end.

(** The suite of the [try]: the object [job] and the state as the suite
    leaves them, and whether it ended or raised. *)
Definition export_try (w : World) (job_id : Z) (job : BookwyrmExportJob)
    (st : State) : BookwyrmExportJob * State * result unit :=
  let file := {| file_name := uuid4 w; file_content := [] |} in
  let job := with_export_data (Some file) job in
  let st := {| jobs := alter (ui_update w) job_id (jobs st); trace := trace st |} in
  match Job_user (db w) job with
  | Raise e => (job, st, Raise e)
  | Ok user =>
      match json_export w user with
      | Raise e => (job, st, Raise e)
      | Ok json_data =>
          (* [job.export_data] is the object [tar_export] writes to *)
          let '(file, r) := tar_export w json_data user file in
          let job := with_export_data (Some file) job in
          match r with
          | Raise e => (job, st, Raise e)
          | Ok _ =>
              if save_raise (faults w) then (job, st, Raise DatabaseError)
              else (job, save ["export_data"] job_id job st, Ok ())
          end
      end
  end.

Definition start_export_task (w : World) (job_id : Z) (st : State)
  : State * result unit :=
  match jobs st !! job_id with
  | None => (st, Raise DoesNotExist)
  | Some job =>
      (* don't start the job if it was stopped from the UI *)
      if complete job then (st, Ok ())
      else
        let '(job, st, outcome) := export_try w job_id job st in
        let '(job, st) :=
          match outcome with
          | Ok _ => (job, st)
          | Raise err => set_status "failed" job_id job (record (Logged job_id err) st)
          end in
        let '(job, st) := set_status "complete" job_id job st in
        (st, Ok ())
  end.

End ExportJob.

(** ** A sample instance *)

Module Sample.

Definition img (n : string) : ImageFieldFile :=
  {| img_name := n; img_url := "/images/" +:+ n |}.
Definition no_img : ImageFieldFile :=
  {| img_name := EmptyString; img_url := EmptyString |}.

Definition mkuser (i : Z) (n : string) (a : ImageFieldFile) : User :=
  {| user_id := i; user_remote_id := "https://example.net/user/" +:+ n;
     username := n; name := n; summary := EmptyString;
     manually_approves_followers := false; hide_follows := false;
     show_goal := true; show_suggested_users := true; discoverable := true;
     preferred_timezone := "UTC"; default_post_privacy := "public";
     avatar := a |}.

Definition alice : User := mkuser 1 "alice" (img "avatars/alice.png").
Definition bob : User := mkuser 2 "bob" no_img.
Definition carol : User := mkuser 3 "carol" no_img.

Definition mkbook (i : Z) (c : ImageFieldFile) (t : string) : Book :=
  {| book_id := i; cover := c; book_cols := [("title", SStr t)] |}.

Definition sample_db : Database :=
  {| users := [alice; bob; carol];
     annualgoals :=
       [ {| goal_user := 1; goal := 12; year := 2023; privacy := "public" |};
         {| goal_user := 2; goal := 5; year := 2023; privacy := "public" |};
         {| goal_user := 1; goal := 20; year := 2024; privacy := "followers" |} ];
     readthroughs :=
       [ {| readthrough_id := 1; readthrough_user := 1; readthrough_book := 101;
            readthrough_cols := [("progress", SInt 30)] |} ];
     books :=
       [ mkbook 100 (img "covers/100.jpg") "Emma";
         mkbook 101 no_img "Persuasion";
         mkbook 102 (img "covers/102.jpg") "Ulysses";
         mkbook 103 no_img "Emma (work)" ];
     editions :=
       [ {| book_ptr_id := 100; edition_cols := [("pages", SInt 474)] |};
         {| book_ptr_id := 101; edition_cols := [("pages", SInt 249)] |};
         {| book_ptr_id := 102; edition_cols := [("pages", SInt 730)] |} ];
     authors :=
       [ {| author_id := 7; author_cols := [("name", SStr "Jane Austen")] |};
         {| author_id := 8; author_cols := [("name", SStr "James Joyce")] |} ];
     book_authors := [(100, 7); (101, 7); (102, 8)];
     shelves :=
       [ {| shelf_id := 10; shelf_user := 1; identifier := "to-read"; shelf_cols := [] |};
         {| shelf_id := 11; shelf_user := 2; identifier := "read"; shelf_cols := [] |} ];
     shelfbooks :=
       [ {| shelfbook_id := 1000; shelfbook_user := 1; shelfbook_book := 100;
            shelfbook_shelf := 10; shelfbook_cols := [] |};
         {| shelfbook_id := 1001; shelfbook_user := 2; shelfbook_book := 101;
            shelfbook_shelf := 10; shelfbook_cols := [] |};
         {| shelfbook_id := 1002; shelfbook_user := 2; shelfbook_book := 102;
            shelfbook_shelf := 11; shelfbook_cols := [] |} ];
     lists :=
       [ {| list_id := 20; list_user := 1; list_name := "favourites";
            list_remote_id := "https://example.net/list/20"; list_cols := [] |};
         {| list_id := 21; list_user := 2; list_name := "classics";
            list_remote_id := "https://example.net/list/21"; list_cols := [] |} ];
     listitems :=
       [ {| listitem_id := 1; listitem_book_list := 20; listitem_book := 100;
            listitem_cols := [] |};
         {| listitem_id := 2; listitem_book_list := 20; listitem_book := 101;
            listitem_cols := [] |};
         {| listitem_id := 3; listitem_book_list := 21; listitem_book := 102;
            listitem_cols := [] |} ];
     reviews :=
       [ {| status_id := 1; status_user := 1; status_book := 100;
            status_cols := [("rating", SInt 5)] |} ];
     comments :=
       [ {| status_id := 2; status_user := 2; status_book := 102; status_cols := [] |} ];
     quotations :=
       [ {| status_id := 3; status_user := 1; status_book := 101; status_cols := [] |} ];
     userfollows :=
       [ {| relationship_id := 1; user_subject := 1; user_object := 2 |};
         {| relationship_id := 2; user_subject := 3; user_object := 1 |} ];
     userblocks :=
       [ {| relationship_id := 1; user_subject := 1; user_object := 3 |} ];
     user_saved_lists := [(1, 21)] |}.

Definition world (f : Faults) : World :=
  {| db := sample_db; faults := f; uuid4 := "0b1e"; ui_update := id |}.

Definition all_editions : User → Edition → bool := λ _ _, true.

(** The UI stops the job while the export runs. *)
Definition stop (row : BookwyrmExportJob) : BookwyrmExportJob :=
  {| job_user := job_user row; complete := true; status := "stopped";
     export_data := export_data row |}.

Definition world_stopping : World :=
  {| db := sample_db; faults := no_faults; uuid4 := "0b1e"; ui_update := stop |}.

(** A job of alice that has not run yet, and the job table that holds it. *)
Definition pending_job : BookwyrmExportJob :=
  {| job_user := 1; complete := false; status := "pending"; export_data := None |}.

Definition stopped_job : BookwyrmExportJob :=
  {| job_user := 1; complete := true; status := "stopped"; export_data := None |}.

Definition state_of (job : BookwyrmExportJob) : State :=
  {| jobs := {[ 7 := job ]}; trace := [] |}.

(** The archive cannot be written. *)
Definition archive_fails : Faults :=
  {| goals_raise := None; readthroughs_raise := false; query_raise := false;
     tar_raise := true; save_raise := false |}.

(** Both guarded operations of [json_export] raise. *)
Definition guarded_fail : Faults :=
  {| goals_raise := Some 1%nat; readthroughs_raise := true; query_raise := false;
     tar_raise := false; save_raise := false |}.

(** The sample with a second list of alice that is also named
    "favourites" and also holds the book 100. *)
Definition collide_db : Database :=
  {| users := users sample_db;
     annualgoals := annualgoals sample_db;
     readthroughs := readthroughs sample_db;
     books := books sample_db;
     editions := editions sample_db;
     authors := authors sample_db;
     book_authors := book_authors sample_db;
     shelves := shelves sample_db;
     shelfbooks := shelfbooks sample_db;
     lists :=
       (lists sample_db
        ++ [ {| list_id := 22; list_user := 1; list_name := "favourites";
                list_remote_id := "https://example.net/list/22"; list_cols := [] |} ])%list;
     listitems :=
       (listitems sample_db
        ++ [ {| listitem_id := 4; listitem_book_list := 22; listitem_book := 100;
                listitem_cols := [] |} ])%list;
     reviews := reviews sample_db;
     comments := comments sample_db;
     quotations := quotations sample_db;
     userfollows := userfollows sample_db;
     userblocks := userblocks sample_db;
     user_saved_lists := user_saved_lists sample_db |}.

Definition collide_world : World :=
  {| db := collide_db; faults := no_faults; uuid4 := "0b1e"; ui_update := id |}.

(** An unguarded query raises. *)
Definition query_fails : Faults :=
  {| goals_raise := None; readthroughs_raise := false; query_raise := true;
     tar_raise := false; save_raise := false |}.

(** A job whose user has no row. *)
Definition orphan_job : BookwyrmExportJob :=
  {| job_user := 99; complete := false; status := "pending"; export_data := None |}.

End Sample.

(** ** The vocabulary of the specification *)

(** An edition is related to a user through one of the six relations of
    [get_books_for_user]. *)
Definition on_shelf_of (db : Database) (uid : Z) (e : Edition) : Prop :=
  ∃ sb s, sb ∈ shelfbooks db ∧ s ∈ shelves db
          ∧ shelfbook_book sb = edition_id e
          ∧ shelf_id s = shelfbook_shelf sb ∧ shelf_user s = uid.

Definition read_by (db : Database) (uid : Z) (e : Edition) : Prop :=
  ∃ r, r ∈ readthroughs db
       ∧ readthrough_book r = edition_id e ∧ readthrough_user r = uid.

Definition status_by (table : list BookStatus) (uid : Z) (e : Edition) : Prop :=
  ∃ s, s ∈ table ∧ status_book s = edition_id e ∧ status_user s = uid.

Definition on_list_of (db : Database) (uid : Z) (e : Edition) : Prop :=
  ∃ li l, li ∈ listitems db ∧ l ∈ lists db
          ∧ listitem_book li = edition_id e
          ∧ list_id l = listitem_book_list li ∧ list_user l = uid.

Definition related (db : Database) (user : User) (e : Edition) : Prop :=
  on_shelf_of db (user_id user) e
  ∨ read_by db (user_id user) e
  ∨ status_by (reviews db) (user_id user) e
  ∨ on_list_of db (user_id user) e
  ∨ status_by (comments db) (user_id user) e
  ∨ status_by (quotations db) (user_id user) e.

(** [pk] is a primary key of the table: no two rows share its value. *)
Definition primary_key {A} (pk : A → Z) (rows : list A) : Prop :=
  NoDup (pk <$> rows).

(** [subject] follows (or blocks) [object], by the rows of [table]. *)
Definition relates (table : list UserRelationship) (subject object : User) : Prop :=
  ∃ r, r ∈ table ∧ user_subject r = user_id subject ∧ user_object r = user_id object.

(** The keys of the payload. *)
Definition payload_keys : list string :=
  ["user"; "goals"; "books"; "saved_lists"; "follows"; "blocked_users"].

(** The same world, but neither of the two guarded operations raises. *)
Definition without_guarded_faults (w : World) : World :=
  {| db := db w;
     faults := {| goals_raise := None; readthroughs_raise := false;
                  query_raise := query_raise (faults w);
                  tar_raise := tar_raise (faults w);
                  save_raise := save_raise (faults w) |};
     uuid4 := uuid4 w; ui_update := ui_update w |}.

(** The goals of the user that the iterator yields before it raises, all
    of them when it does not. *)
Definition goals_so_far (w : World) (user : User) : list value :=
  let reading_goals :=
    distinct (filter (λ g, goal_user g = user_id user) (annualgoals (db w))) in
  goal_entry <$> match goals_raise (faults w) with
                 | Some n => take n reading_goals
                 | None => reading_goals
                 end.

(** The members of the archive of a user: the payload, the avatar if there
    is one, one cover for each of the editions that has one. *)
Definition archive_of (json_data : string) (user : User) (editions : list Edition)
  : list member :=
  (write_bytes (utf8 json_data)
   :: (if decide (truthy (avatar user))
       then [add_image (avatar user) (Some "avatar")] else [])
   ++ ((λ e, add_image (cover (edition_book e)) None)
         <$> filter (λ e, truthy (cover (edition_book e))) editions))%list.

(** The statuses a run has set, oldest first. *)
Definition status_updates (tr : list event) : list string :=
  omap (λ e, match e with StatusSet _ s => Some s | _ => None end) tr.

(** The nested keys of an entry of "books". *)
Definition nested_keys : list string :=
  [ "edition"; "authors"; "readthroughs"; "shelves"; "shelf_books"; "lists";
    "list_items"; "reviews"; "comments"; "quotes" ].

(** [entry[key]] is the list of the [values()] of exactly the rows [P]. *)
Definition holds_rows {A} (entry : dict) (key : string) (vals : A → columns)
    (P : A → Prop) : Prop :=
  ∃ rows, dict_get key entry = Some (rows_value (vals <$> rows))
          ∧ ∀ r, r ∈ rows ↔ P r.

(** Which of the rows listed under [rows_key] keep their items in the
    dictionary keyed by name: every row; or, among the rows of one name, the
    one that comes last (a later row of the same name replaces the items of
    an earlier one). *)
Definition every_row {A} (name : A → string) (rows : list A) (x : A) : Prop :=
  x ∈ rows.

Definition last_of_name {A} (name : A → string) (rows : list A) (x : A) : Prop :=
  last (filter (λ y, name y = name x) rows) = Some x.

(** [entry[rows_key]] lists the [values()] of exactly the [matched] rows;
    [entry[key]] is a dictionary whose keys are the names of these rows, and
    that holds under the name of a [kept] row the [values()] of exactly the
    [item]s of that row. *)
Definition holds_keyed {A B} (kept : (A → string) → list A → A → Prop)
    (entry : dict) (rows_key : string) (row_vals : A → columns)
    (matched : A → Prop) (key : string) (name : A → string)
    (vals : B → columns) (item : A → B → Prop) : Prop :=
  ∃ rows d,
    dict_get rows_key entry = Some (rows_value (row_vals <$> rows))
    ∧ (∀ r, r ∈ rows ↔ matched r)
    ∧ dict_get key entry = Some (VDict d)
    ∧ (∀ k, k ∈ dict_keys d ↔ ∃ x, x ∈ rows ∧ name x = k)
    ∧ (∀ x, kept name rows x →
         ∃ items, dict_get (name x) d = Some (rows_value (vals <$> items))
                  ∧ ∀ i, i ∈ items ↔ item x i).

(** A shelf of the user on which the user has put the book. *)
Definition shelf_of_book (db : Database) (uid bid : Z) (s : Shelf) : Prop :=
  s ∈ shelves db ∧ shelf_user s = uid
  ∧ ∃ sb, sb ∈ shelfbooks db ∧ shelfbook_shelf sb = shelf_id s
          ∧ shelfbook_user sb = uid ∧ shelfbook_book sb = bid.

(** A list of the user that holds the book. *)
Definition list_of_book (db : Database) (uid bid : Z) (l : BookList) : Prop :=
  l ∈ lists db ∧ list_user l = uid
  ∧ ∃ li, li ∈ listitems db ∧ listitem_book_list li = list_id l
          ∧ listitem_book li = bid.

(** Every item of a shelf; every item of a shelf that belongs to a user. *)
Definition shelf_item (db : Database) (s : Shelf) (sb : ShelfBook) : Prop :=
  sb ∈ shelfbooks db ∧ shelfbook_shelf sb = shelf_id s.

Definition shelf_item_of (db : Database) (uid : Z) (s : Shelf) (sb : ShelfBook) : Prop :=
  sb ∈ shelfbooks db ∧ shelfbook_user sb = uid ∧ shelfbook_shelf sb = shelf_id s.

Definition list_item (db : Database) (l : BookList) (li : ListItem) : Prop :=
  li ∈ listitems db ∧ listitem_book_list li = list_id l.

Definition status_of_book (table : list BookStatus) (uid bid : Z) (s : BookStatus) : Prop :=
  s ∈ table ∧ status_user s = uid ∧ status_book s = bid.

(** What an entry of "books" holds for the book [b] of the user; [kept]
    says which shelves and lists keep their items under their name, [items]
    which rows of a shelf the entry "shelf_books" holds. *)
Definition book_entry_spec (kept : ∀ A, (A → string) → list A → A → Prop)
    (items : Shelf → ShelfBook → Prop) (db : Database)
    (user : User) (editions : list Edition) (b : Book) (entry : dict) : Prop :=
  let uid := user_id user in
  let bid := book_id b in
  (∀ k, k ∉ nested_keys → dict_get k entry = dict_get k (row_dict (Book_values b)))
  ∧ (∃ e, e ∈ editions ∧ edition_id e = bid
          ∧ dict_get "edition" entry = Some (VDict (row_dict (Edition_values e))))
  ∧ (∃ e, e ∈ editions ∧ edition_id e = bid
          ∧ holds_rows entry "authors" Author_values
              (λ a, a ∈ authors db ∧ (edition_id e, author_id a) ∈ book_authors db))
  ∧ holds_rows entry "readthroughs" ReadThrough_values
      (λ r, r ∈ readthroughs db ∧ readthrough_user r = uid ∧ readthrough_book r = bid)
  ∧ holds_keyed (kept Shelf) entry "shelves" Shelf_values (shelf_of_book db uid bid)
      "shelf_books" identifier ShelfBook_values items
  ∧ holds_keyed (kept BookList) entry "lists" List_values (list_of_book db uid bid)
      "list_items" list_name ListItem_values (list_item db)
  ∧ holds_rows entry "reviews" BookStatus_values (status_of_book (reviews db) uid bid)
  ∧ holds_rows entry "comments" BookStatus_values (status_of_book (comments db) uid bid)
  ∧ holds_rows entry "quotes" BookStatus_values (status_of_book (quotations db) uid bid).

(** The entry "books" of the payload: one entry for each of the books, in
    their order. *)
Definition books_payload_spec (kept : ∀ A, (A → string) → list A → A → Prop)
    (items : Shelf → ShelfBook → Prop) (db : Database)
    (user : User) (editions : list Edition) (books : list Book) (data : dict) : Prop :=
  ∃ entries,
    dict_get "books" data = Some (VList (VDict <$> entries))
    ∧ Forall2 (book_entry_spec kept items db user editions) books entries.

(** The entries "follows" and "blocked_users" of the payload hold exactly
    the remote ids of the users that [user] follows, and blocks. *)
Definition follows_blocks_spec (db : Database) (user : User) (data : dict) : Prop :=
  ∃ follows blocks,
    dict_get "follows" data = Some (VList (VStr <$> follows))
    ∧ dict_get "blocked_users" data = Some (VList (VStr <$> blocks))
    ∧ (∀ rid, rid ∈ follows
         ↔ ∃ u, u ∈ users db ∧ relates (userfollows db) user u
                ∧ user_remote_id u = rid)
    ∧ (∀ rid, rid ∈ blocks
         ↔ ∃ u, u ∈ users db ∧ relates (userblocks db) user u
                ∧ user_remote_id u = rid).

(** The state [st'] is the state [before] after a save of the object [job']
    that writes [export_data] and nothing else. *)
Definition saved_export_data_only (job_id : Z) (job' : BookwyrmExportJob)
    (before st' : State) : Prop :=
  st' = save ["export_data"] job_id job' before
  ∧ trace st' = (trace before ++ [Saved job_id ["export_data"]])%list
  ∧ (∀ row, jobs before !! job_id = Some row →
       ∃ row', jobs st' !! job_id = Some row'
               ∧ export_data row' = export_data job'
               ∧ job_user row' = job_user row
               ∧ complete row' = complete row
               ∧ status row' = status row)
  ∧ (∀ j, j ≠ job_id → jobs st' !! j = jobs before !! j).

(** The errors a run has logged, oldest first. *)
Definition logged_errors (tr : list event) : list (Z * exn) :=
  omap (λ e, match e with Logged job_id err => Some (job_id, err) | _ => None end) tr.

(** The saves of a run that write the field [export_data]. *)
Definition export_data_saves (tr : list event) : list Z :=
  omap (λ e, match e with
             | Saved job_id fields =>
                 if decide ("export_data" ∈ fields) then Some job_id else None
             | _ => None
             end) tr.

(** ** Querysets: membership *)

Section Querysets.

Context {A : Type}.

Lemma left_outer_Some (rows : list A) (x : A) :
  Some x ∈ left_outer rows ↔ x ∈ rows.
Proof.
  destruct rows as [|y rows]; simpl.
  - rewrite elem_of_cons. split; [intros [?|H]; [done | inversion H] | inversion 1].
  - change (Some x ∈ Some <$> (y :: rows) ↔ x ∈ y :: rows).
    rewrite list_elem_of_fmap. split.
    + intros (z & [= ->] & Hz). done.
    + intros Hx. by exists x.
Qed.

Lemma left_outer_inhabited (rows : list A) : ∃ o, o ∈ left_outer rows.
Proof.
  destruct rows as [|y rows]; simpl.
  - exists None. apply elem_of_cons; by left.
  - exists (Some y). apply elem_of_cons; by left.
Qed.

Lemma column_Some (f : A → Z) (rows : list A) (u : Z) :
  Some u ∈ column f <$> left_outer rows ↔ ∃ x, x ∈ rows ∧ f x = u.
Proof.
  rewrite list_elem_of_fmap. split.
  - intros ([x|] & Hu & Hx); simpl in Hu; [|done].
    injection Hu as ->. exists x. split; [by apply left_outer_Some | done].
  - intros (x & Hx & <-). exists (Some x). split; [done | by apply left_outer_Some].
Qed.

Lemma column_inhabited (f : A → Z) (rows : list A) :
  ∃ o, o ∈ column f <$> left_outer rows.
Proof.
  destruct (left_outer_inhabited rows) as [o Ho].
  exists (column f o). by apply list_elem_of_fmap_2.
Qed.

Context `{EqDecision A}.

Lemma elem_of_distinct (rows : list A) (x : A) : x ∈ distinct rows ↔ x ∈ rows.
Proof. apply elem_of_remove_dups. Qed.

Lemma NoDup_distinct (rows : list A) : NoDup (distinct rows).
Proof. apply NoDup_remove_dups. Qed.

End Querysets.

(** ** Dictionaries *)

Lemma dict_get_set_eq k v (d : dict) : dict_get k (dict_set k v d) = Some v.
Proof.
  induction d as [|[k' v'] d IH]; simpl.
  - by rewrite decide_True.
  - case_decide; simpl.
    + by rewrite decide_True.
    + by rewrite decide_False.
Qed.

Lemma dict_get_set_ne k k' v (d : dict) :
  k ≠ k' → dict_get k (dict_set k' v d) = dict_get k d.
Proof.
  intros Hne. induction d as [|[k'' v''] d IH]; simpl.
  - by rewrite decide_False.
  - case_decide; simpl.
    + subst k''. by rewrite !decide_False.
    + by rewrite IH.
Qed.

Lemma dict_keys_set k k' v (d : dict) :
  k ∈ dict_keys (dict_set k' v d) ↔ k = k' ∨ k ∈ dict_keys d.
Proof.
  unfold dict_keys. induction d as [|[k'' v''] d IH]; simpl.
  - rewrite list_elem_of_singleton, elem_of_nil. tauto.
  - case_decide; simpl; rewrite !elem_of_cons.
    + subst k''. tauto.
    + rewrite IH. tauto.
Qed.

(** A dictionary filled by a loop: the keys are the names met, a key holds
    the value of a row of that name. *)
Lemma dict_filled {A} (name : A → string) (val : A → value) (xs : list A) (d0 : dict) :
  let d := foldl (λ d x, dict_set (name x) (val x) d) d0 xs in
  (∀ k, k ∈ dict_keys d ↔ k ∈ dict_keys d0 ∨ ∃ x, x ∈ xs ∧ name x = k)
  ∧ (∀ k v, dict_get k d = Some v →
       dict_get k d0 = Some v ∨ ∃ x, x ∈ xs ∧ name x = k ∧ v = val x).
Proof.
  revert d0. induction xs as [|x xs IH]; intros d0; simpl.
  - split.
    + intros k. split; [by left | intros [?|(x & Hx & _)]; [done|]].
      by apply elem_of_nil in Hx.
    + intros k v Hv. by left.
  - destruct (IH (dict_set (name x) (val x) d0)) as [Hkeys Hget]. split.
    + intros k. rewrite Hkeys, dict_keys_set. split.
      * intros [[->|?]|(y & Hy & <-)]; [right; exists x | by left | right; exists y];
          (split; [|done]); [by left | by right].
      * intros [?|(y & [->|Hy]%elem_of_cons & <-)]; [by left; right | by left; left |].
        right. by exists y.
    + intros k v Hv. apply Hget in Hv as [Hv|(y & Hy & <- & ->)].
      * destruct (decide (k = name x)) as [->|Hne].
        -- rewrite dict_get_set_eq in Hv. injection Hv as <-.
           right. exists x. split; [by left | done].
        -- rewrite dict_get_set_ne in Hv by done. by left.
      * right. exists y. split; [by right | done].
Qed.

(** Under a key, such a dictionary holds the value of the last row of that
    name. *)
Lemma dict_filled_last {A} (name : A → string) (val : A → value) (xs : list A)
    (d0 : dict) (k : string) :
  dict_get k (foldl (λ d x, dict_set (name x) (val x) d) d0 xs)
  = match last (filter (λ x, name x = k) xs) with
    | Some x => Some (val x)
    | None => dict_get k d0
    end.
Proof.
  revert d0. induction xs as [|x xs IH]; intros d0; simpl; [done|].
  rewrite IH, filter_cons. case_decide as Hk.
  - subst k. rewrite last_cons.
    destruct (last (filter (λ y, name y = name x) xs)); [done|].
    apply dict_get_set_eq.
  - destruct (last (filter (λ y, name y = k) xs)); [done|].
    by apply dict_get_set_ne.
Qed.

(** ** get_books_for_user *)

Section GetBooks.

Variable viewer_aware : User → Edition → bool.

Lemma shelves__user_Some db e u :
  Some u ∈ shelves__user db e ↔ on_shelf_of db u e.
Proof.
  unfold shelves__user, on_shelf_of. rewrite list_elem_of_bind. split.
  - intros ([sb|] & Hu & Hsb).
    + apply column_Some in Hu as (s & Hs & Hu).
      apply list_elem_of_filter in Hs as [Hid Hs].
      apply left_outer_Some, list_elem_of_filter in Hsb as [Hb Hsb].
      by exists sb, s.
    + apply list_elem_of_singleton in Hu. done.
  - intros (sb & s & Hsb & Hs & Hb & Hid & Hu).
    exists (Some sb). split.
    + apply column_Some. exists s. split; [|done].
      by apply list_elem_of_filter.
    + by apply left_outer_Some, list_elem_of_filter.
Qed.

Lemma shelves__user_inhabited db e : ∃ o, o ∈ shelves__user db e.
Proof.
  unfold shelves__user.
  destruct (left_outer_inhabited
              (filter (λ sb, shelfbook_book sb = edition_id e) (shelfbooks db)))
    as [[sb|] Hsb].
  - destruct (column_inhabited shelf_user
                (filter (λ s, shelf_id s = shelfbook_shelf sb) (shelves db)))
      as [o Ho].
    exists o. apply list_elem_of_bind. by exists (Some sb).
  - exists None. apply list_elem_of_bind. exists None.
    split; [by apply list_elem_of_singleton | done].
Qed.

Lemma list__user_Some db e u :
  Some u ∈ list__user db e ↔ on_list_of db u e.
Proof.
  unfold list__user, on_list_of. rewrite list_elem_of_bind. split.
  - intros ([li|] & Hu & Hli).
    + apply column_Some in Hu as (l & Hl & Hu).
      apply list_elem_of_filter in Hl as [Hid Hl].
      apply left_outer_Some, list_elem_of_filter in Hli as [Hb Hli].
      by exists li, l.
    + apply list_elem_of_singleton in Hu. done.
  - intros (li & l & Hli & Hl & Hb & Hid & Hu).
    exists (Some li). split.
    + apply column_Some. exists l. split; [|done].
      by apply list_elem_of_filter.
    + by apply left_outer_Some, list_elem_of_filter.
Qed.

Lemma list__user_inhabited db e : ∃ o, o ∈ list__user db e.
Proof.
  unfold list__user.
  destruct (left_outer_inhabited
              (filter (λ li, listitem_book li = edition_id e) (listitems db)))
    as [[li|] Hli].
  - destruct (column_inhabited list_user
                (filter (λ l, list_id l = listitem_book_list li) (lists db)))
      as [o Ho].
    exists o. apply list_elem_of_bind. by exists (Some li).
  - exists None. apply list_elem_of_bind. exists None.
    split; [by apply list_elem_of_singleton | done].
Qed.

Lemma readthrough__user_Some db e u :
  Some u ∈ readthrough__user db e ↔ read_by db u e.
Proof.
  unfold readthrough__user, read_by. rewrite column_Some.
  split; intros (r & H1 & H2); exists r.
  - apply list_elem_of_filter in H1 as [? ?]. done.
  - destruct H2. split; [by apply list_elem_of_filter | done].
Qed.

Lemma status__user_Some table e u :
  Some u ∈ status__user table e ↔ status_by table u e.
Proof.
  unfold status__user, status_by. rewrite column_Some.
  split; intros (r & H1 & H2); exists r.
  - apply list_elem_of_filter in H1 as [? ?]. done.
  - destruct H2. split; [by apply list_elem_of_filter | done].
Qed.

(** The rows of the six joins that pass the WHERE clause. *)
Lemma joined_rows db user (all_books : list Edition) e :
  e ∈ (e ← all_books;
       s ← shelves__user db e;
       r ← readthrough__user db e;
       v ← review__user db e;
       l ← list__user db e;
       c ← comment__user db e;
       q ← quotation__user db e;
       if decide (s = Some (user_id user) ∨ r = Some (user_id user)
                  ∨ v = Some (user_id user) ∨ l = Some (user_id user)
                  ∨ c = Some (user_id user) ∨ q = Some (user_id user))
       then [e] else [])
  ↔ e ∈ all_books ∧ related db user e.
Proof.
  unfold related.
  rewrite <- shelves__user_Some, <- readthrough__user_Some, <- list__user_Some.
  rewrite <- !status__user_Some.
  fold (review__user db e) (comment__user db e) (quotation__user db e).
  split.
  - intros H.
    apply list_elem_of_bind in H as (e' & H & He').
    apply list_elem_of_bind in H as (s & H & Hs).
    apply list_elem_of_bind in H as (r & H & Hr).
    apply list_elem_of_bind in H as (v & H & Hv).
    apply list_elem_of_bind in H as (l & H & Hl).
    apply list_elem_of_bind in H as (c & H & Hc).
    apply list_elem_of_bind in H as (q & H & Hq).
    case_decide as Hw; [|by apply elem_of_nil in H].
    apply list_elem_of_singleton in H as ->.
    split; [done|].
    destruct Hw as [-> | [-> | [-> | [-> | [-> | ->]]]]]; auto 7.
  - intros [He Hw].
    destruct (shelves__user_inhabited db e) as [s0 Hs0].
    destruct (column_inhabited readthrough_user
      (filter (λ r, readthrough_book r = edition_id e) (readthroughs db))) as [r0 Hr0].
    destruct (column_inhabited status_user
      (filter (λ s, status_book s = edition_id e) (reviews db))) as [v0 Hv0].
    destruct (list__user_inhabited db e) as [l0 Hl0].
    destruct (column_inhabited status_user
      (filter (λ s, status_book s = edition_id e) (comments db))) as [c0 Hc0].
    destruct (column_inhabited status_user
      (filter (λ s, status_book s = edition_id e) (quotations db))) as [q0 Hq0].
    assert (∃ s r v l c q,
      s ∈ shelves__user db e ∧ r ∈ readthrough__user db e ∧ v ∈ review__user db e
      ∧ l ∈ list__user db e ∧ c ∈ comment__user db e ∧ q ∈ quotation__user db e
      ∧ (s = Some (user_id user) ∨ r = Some (user_id user)
         ∨ v = Some (user_id user) ∨ l = Some (user_id user)
         ∨ c = Some (user_id user) ∨ q = Some (user_id user)))
      as (s & r & v & l & c & q & Hs & Hr & Hv & Hl & Hc & Hq & Hany).
    { destruct Hw as [H|[H|[H|[H|[H|H]]]]].
      - exists (Some (user_id user)), r0, v0, l0, c0, q0. auto 12.
      - exists s0, (Some (user_id user)), v0, l0, c0, q0. auto 12.
      - exists s0, r0, (Some (user_id user)), l0, c0, q0. auto 12.
      - exists s0, r0, v0, (Some (user_id user)), c0, q0. auto 12.
      - exists s0, r0, v0, l0, (Some (user_id user)), q0. auto 12.
      - exists s0, r0, v0, l0, c0, (Some (user_id user)). auto 12. }
    apply list_elem_of_bind. exists e. split; [|done].
    apply list_elem_of_bind. exists s. split; [|done].
    apply list_elem_of_bind. exists r. split; [|done].
    apply list_elem_of_bind. exists v. split; [|done].
    apply list_elem_of_bind. exists l. split; [|done].
    apply list_elem_of_bind. exists c. split; [|done].
    apply list_elem_of_bind. exists q. split; [|done].
    rewrite decide_True by done. by apply list_elem_of_singleton.
Qed.

Lemma Edition_objects_book db e :
  e ∈ Edition_objects db → edition_book e ∈ books db.
Proof.
  unfold Edition_objects. intros H.
  apply list_elem_of_bind in H as (r & H & Hr).
  apply list_elem_of_bind in H as (b & H & Hb).
  apply list_elem_of_singleton in H as ->. simpl.
  by apply list_elem_of_filter in Hb as [_ Hb].
Qed.

Lemma elem_of_get_books_editions db user e :
  e ∈ (get_books_for_user viewer_aware db user).1
  ↔ e ∈ viewer_aware_objects viewer_aware db user ∧ related db user e.
Proof. simpl. rewrite elem_of_distinct. apply joined_rows. Qed.

Lemma elem_of_get_books_books db user b :
  b ∈ (get_books_for_user viewer_aware db user).2
  ↔ b ∈ books db
    ∧ book_id b ∈ edition_id <$> (get_books_for_user viewer_aware db user).1.
Proof. simpl. rewrite elem_of_distinct, list_elem_of_filter. tauto. Qed.

(** C4: [get_books_for_user] returns exactly the viewer-aware editions that
    are related to the user through shelves, read-throughs, reviews, lists,
    comments or quotations, each once, and with them exactly the [Book] rows
    whose ids are the ids of those editions. *)
Theorem get_books_for_user_exact (db : Database) (user : User) :
  let editions := (get_books_for_user viewer_aware db user).1 in
  let books' := (get_books_for_user viewer_aware db user).2 in
  (∀ e, e ∈ editions ↔ e ∈ viewer_aware_objects viewer_aware db user ∧ related db user e)
  ∧ NoDup editions
  ∧ (∀ b, b ∈ books' ↔ b ∈ books db ∧ book_id b ∈ edition_id <$> editions)
  ∧ NoDup books'
  ∧ (∀ i, i ∈ book_id <$> books' ↔ i ∈ edition_id <$> editions).
Proof.
  intros editions books'. split_and!.
  - apply elem_of_get_books_editions.
  - apply NoDup_distinct.
  - apply elem_of_get_books_books.
  - apply NoDup_distinct.
  - intros i. split.
    + intros (b & -> & Hb)%list_elem_of_fmap.
      by apply elem_of_get_books_books in Hb as [_ Hb].
    + intros Hi. pose proof Hi as (e & -> & He)%list_elem_of_fmap.
      apply list_elem_of_fmap. exists (edition_book e). split; [done|].
      apply elem_of_get_books_books. split; [|done].
      apply elem_of_get_books_editions in He as [He _].
      apply list_elem_of_filter in He as [_ He].
      by apply Edition_objects_book.
Qed.

End GetBooks.

(** ** json_export *)

Lemma primary_key_inj {A} (pk : A → Z) (rows : list A) (x y : A) :
  primary_key pk rows → x ∈ rows → y ∈ rows → pk x = pk y → x = y.
Proof.
  unfold primary_key. induction rows as [|z rows IH]; simpl.
  - intros _ Hx. by apply elem_of_nil in Hx.
  - rewrite NoDup_cons, !elem_of_cons. intros [Hz Hnd] [->|Hx] [->|Hy] Hpk; auto.
    + exfalso. apply Hz. rewrite Hpk. by apply list_elem_of_fmap_2.
    + exfalso. apply Hz. rewrite <- Hpk. by apply list_elem_of_fmap_2.
Qed.

Lemma mapM_result_Ok {A B} (f : A → result B) (l : list A) :
  (∀ x, x ∈ l → returns (f x)) →
  ∃ ys, mapM f l = Ok ys ∧ Forall2 (λ x y, f x = Ok y) l ys.
Proof.
  induction l as [|x l IH]; intros Hl.
  - exists []. split; [done | constructor].
  - destruct (Hl x) as [y Hy]; [by left|].
    destruct IH as (ys & Hys & Hall); [intros z Hz; apply Hl; by right|].
    exists (y :: ys). split; [|by constructor].
    simpl. rewrite Hy. simpl. rewrite Hys. done.
Qed.

Lemma mapM_result_inv {A B} (f : A → result B) (l : list A) (ys : list B) :
  mapM f l = Ok ys → Forall2 (λ x y, f x = Ok y) l ys.
Proof.
  revert ys. induction l as [|x l IH]; intros ys; simpl.
  - intros [= <-]. constructor.
  - destruct (f x) as [y|] eqn:Hy; simpl; [|done].
    destruct (mapM f l) as [k|] eqn:Hk; simpl; [|done].
    intros [= <-]. constructor; [done | by apply IH].
Qed.

Lemma first_is_Some {A} (pk : A → Z) (rows : list A) :
  rows ≠ [] → is_Some (first pk rows).
Proof.
  destruct rows as [|x rows]; [done|]. intros _. simpl.
  fold (first pk rows). destruct (first pk rows); [case_decide|]; eauto.
Qed.

Lemma first_elem_of {A} (pk : A → Z) (rows : list A) (x : A) :
  first pk rows = Some x → x ∈ rows.
Proof.
  revert x. induction rows as [|y rows IH]; intros x; simpl; [done|].
  fold (first pk rows). destruct (first pk rows) as [z|].
  - case_decide; intros [= <-]; [by left | right; by apply IH].
  - intros [= <-]. by left.
Qed.

Section JsonExport.

Variable DOMAIN : string.
Variable viewer_aware : User → Edition → bool.

Abbreviation get_books_for_user' := (get_books_for_user viewer_aware).
Abbreviation json_export_data' := (json_export_data DOMAIN viewer_aware).
Abbreviation json_export' := (json_export DOMAIN viewer_aware).

(** A book that [get_books_for_user] returns has an edition among the
    editions it returns, so neither [[0]] nor [first()] fails. *)
Lemma book_entry_returns db user b :
  b ∈ (get_books_for_user' db user).2 →
  returns (book_entry db user (get_books_for_user' db user).1 b).
Proof.
  intros Hb.
  apply elem_of_get_books_books in Hb as [_ Hb].
  apply list_elem_of_fmap in Hb as (e & Hid & He).
  unfold book_entry.
  set (edition := filter (λ e, edition_id e = book_id b) _).
  assert (He' : e ∈ edition) by by apply list_elem_of_filter.
  assert (Hne : edition ≠ []) by (intros Heq; rewrite Heq in He'; by apply elem_of_nil in He').
  destruct edition as [|e0 rest] eqn:Hed; [done|]. simpl index0. cbn [mbind result_bind].
  destruct (first_is_Some edition_id (e0 :: rest) Hne) as [e1 ->].
  cbn [mbind result_bind]. eexists. reflexivity.
Qed.

(** What [json_export_data] returns, when it returns. *)
Lemma json_export_data_inv w user data :
  json_export_data' w user = Ok data →
  ∃ final_books,
    query_raise (faults w) = false
    ∧ Forall2 (λ b entry, book_entry (db w) user (get_books_for_user' (db w) user).1 b
                          = Ok entry)
        (get_books_for_user' (db w) user).2 final_books
    ∧ data =
      [ ("user", VDict (exported_user DOMAIN user));
        ("goals", VList (goals_loop (goals_raise (faults w))
            (distinct (filter (λ g, goal_user g = user_id user) (annualgoals (db w))))
            []).1);
        ("books", VList (VDict <$> final_books));
        ("saved_lists", VList (VStr <$> (list_remote_id <$>
            distinct (filter (λ l, list_id l ∈ list_id <$> User_saved_lists (db w) user)
                             (lists (db w))))));
        ("follows", VList (VStr <$> (user_remote_id <$>
            users_object_in (db w) (userfollows (db w))
              (distinct (filter (λ f, user_subject f = user_id user) (userfollows (db w)))))));
        ("blocked_users", VList (VStr <$> (user_remote_id <$>
            users_object_in (db w) (userblocks (db w))
              (distinct (filter (λ f, user_subject f = user_id user) (userblocks (db w))))))) ].
Proof.
  unfold json_export_data.
  destruct (get_books_for_user' (db w) user) as [eds bks] eqn:Hg. simpl.
  destruct (query_raise (faults w)); simpl; [done|].
  destruct (mapM _ bks) as [final_books|] eqn:Hm; simpl; [|done].
  intros [= <-]. exists final_books. split_and!; [done | | done].
  by apply mapM_result_inv.
Qed.

(** Without a failing unguarded query, [json_export_data] returns. *)
Lemma json_export_data_returns w user :
  query_raise (faults w) = false → returns (json_export_data' w user).
Proof.
  intros Hq. unfold json_export_data.
  pose proof (book_entry_returns (db w) user) as Hb.
  destruct (get_books_for_user' (db w) user) as [eds bks] eqn:Hg. simpl in *.
  rewrite Hq. simpl.
  destruct (mapM_result_Ok _ bks Hb) as (ys & -> & _). simpl.
  eexists. reflexivity.
Qed.

Lemma elem_of_users_object_in db table rels u :
  u ∈ users_object_in db table rels
  ↔ u ∈ users db
    ∧ ∃ r, r ∈ table ∧ user_object r = user_id u
           ∧ relationship_id r ∈ relationship_id <$> rels.
Proof.
  unfold users_object_in. rewrite elem_of_distinct, list_elem_of_bind. split.
  - intros (u' & H & Hu').
    apply list_elem_of_bind in H as (r & H & Hr).
    case_decide; [|by apply elem_of_nil in H].
    apply list_elem_of_singleton in H as ->.
    apply list_elem_of_filter in Hr as [? ?]. eauto.
  - intros (Hu & r & Hr & Hobj & Hin). exists u. split; [|done].
    apply list_elem_of_bind. exists r. split; [|by apply list_elem_of_filter].
    rewrite decide_True by done. by apply list_elem_of_singleton.
Qed.

(** The users that are the object of a relationship whose subject is [user]. *)
Lemma elem_of_users_object_in_subject db table user u :
  primary_key relationship_id table →
  u ∈ users_object_in db table
        (distinct (filter (λ f, user_subject f = user_id user) table))
  ↔ u ∈ users db ∧ relates table user u.
Proof.
  intros Hpk. rewrite elem_of_users_object_in. unfold relates.
  split; intros (Hu & r & Hr & H1 & H2); (split; [done|]); exists r.
  - apply list_elem_of_fmap in H2 as (r' & Hid & Hr').
    apply elem_of_distinct, list_elem_of_filter in Hr' as [Hs Hr'].
    assert (r = r') as -> by by eapply primary_key_inj.
    done.
  - split_and!; [done..|].
    apply list_elem_of_fmap_2, elem_of_distinct, list_elem_of_filter. done.
Qed.

(** C5: the "follows" entry of the payload holds exactly the remote ids of
    the users the exporting user follows (the exporting user is the subject
    of the relation), and "blocked_users" exactly the remote ids of the users
    the exporting user blocks.  The ids of the two relationship tables are
    primary keys. *)
Theorem json_export_follows_blocks (w : World) (user : User) (data : dict) :
  primary_key relationship_id (userfollows (db w)) →
  primary_key relationship_id (userblocks (db w)) →
  json_export_data' w user = Ok data →
  follows_blocks_spec (db w) user data.
Proof.
  intros Hpf Hpb Hdata.
  apply json_export_data_inv in Hdata as (final_books & _ & _ & ->).
  eexists _, _. split_and!; [reflexivity | reflexivity | |].
  - intros rid. rewrite list_elem_of_fmap.
    setoid_rewrite (elem_of_users_object_in_subject (db w) _ user _ Hpf).
    split; [intros (u & -> & Hu & Hr) | intros (u & Hu & Hr & <-)]; by exists u.
  - intros rid. rewrite list_elem_of_fmap.
    setoid_rewrite (elem_of_users_object_in_subject (db w) _ user _ Hpb).
    split; [intros (u & -> & Hu & Hr) | intros (u & Hu & Hr & <-)]; by exists u.
Qed.

(** The loop appends the goals the iterator yields, in their order. *)
Lemma goals_loop_list fault reading_goals goals_list :
  (goals_loop fault reading_goals goals_list).1
  = (goals_list ++ (goal_entry <$> match fault with
                                   | Some n => take n reading_goals
                                   | None => reading_goals
                                   end))%list.
Proof.
  revert fault goals_list.
  induction reading_goals as [|g rest IH]; intros fault goals_list.
  - destruct fault as [[|n]|]; simpl; by rewrite app_nil_r.
  - destruct fault as [[|n]|]; simpl.
    + by rewrite app_nil_r.
    + rewrite IH. simpl. by rewrite <- app_assoc.
    + rewrite IH. simpl. by rewrite <- app_assoc.
Qed.

(** The loop raises exactly when the iterator is asked for the failing item. *)
Lemma goals_loop_raises fault reading_goals goals_list :
  (goals_loop fault reading_goals goals_list).2 = Raise DatabaseError
  ↔ ∃ n, fault = Some n ∧ (n ≤ List.length reading_goals)%nat.
Proof.
  revert fault goals_list.
  induction reading_goals as [|g rest IH]; intros fault goals_list.
  - destruct fault as [[|n]|]; simpl.
    + split; [exists O; split; [done | lia] | done].
    + split; [done | intros (m & [= <-] & Hm); lia].
    + split; [done | by intros (m & ? & _)].
  - destruct fault as [[|n]|]; simpl.
    + split; [exists O; split; [done | lia] | done].
    + rewrite IH. simpl. split; intros (m & [= Hn] & Hm); subst.
      * exists (S m). split; [done | lia].
      * exists n. split; [done | lia].
    + rewrite IH. simpl. split; by intros (m & ? & _).
Qed.

Lemma json_export_data_goals w user data :
  json_export_data' w user = Ok data →
  dict_get "goals" data = Some (VList (goals_so_far w user)).
Proof.
  intros (final_books & _ & _ & ->)%json_export_data_inv.
  simpl. by rewrite goals_loop_list.
Qed.

(** The guarded operations only decide the entry "goals". *)
Lemma json_export_data_guarded w user :
  json_export_data' w user
  = dict_set "goals" (VList (goals_so_far w user))
      <$> json_export_data' (without_guarded_faults w) user.
Proof.
  unfold json_export_data, goals_so_far.
  cbn [without_guarded_faults db faults goals_raise query_raise].
  destruct (get_books_for_user' (db w) user) as [eds bks].
  destruct (query_raise (faults w)); [done|]. cbn [evaluate mbind result_bind].
  destruct (mapM (book_entry (db w) user eds) bks) as [final_books|]; [|done].
  cbn [mbind result_bind fmap result_fmap dict_set].
  rewrite goals_loop_list. simpl. done.
Qed.



End JsonExport.

(** ** tar_export and start_export_task *)

Section Task.

Variable DOMAIN : string.
Variable viewer_aware : User → Edition → bool.

Abbreviation tar_export' := (tar_export viewer_aware).
Abbreviation export_try' := (export_try DOMAIN viewer_aware).
Abbreviation start_export_task' := (start_export_task DOMAIN viewer_aware).

Lemma foldl_add_covers (tar : list member) (editions : list Edition) :
  foldl (λ tar book,
      if decide (truthy (cover (edition_book book)))
      then (tar ++ [add_image (cover (edition_book book)) None])%list
      else tar) tar editions
  = (tar ++ ((λ e, add_image (cover (edition_book e)) None)
               <$> filter (λ e, truthy (cover (edition_book e))) editions))%list.
Proof.
  revert tar. induction editions as [|e editions IH]; intros tar; simpl.
  - by rewrite app_nil_r.
  - rewrite IH, filter_cons. case_decide; [|done].
    by rewrite <- app_assoc.
Qed.

(** C7: the archive [tar_export] writes holds the UTF-8 encoding of the
    payload first, then the avatar of the user if it is truthy, then one
    cover for each edition of the user's books whose cover is truthy, and
    nothing else (when neither the archive nor the query raises). *)
Theorem tar_export_archive (w : World) (json_data : string) (user : User)
    (file : ContentFile) :
  tar_raise (faults w) = false →
  query_raise (faults w) = false →
  tar_export' w json_data user file
  = ({| file_name := file_name file;
        file_content :=
          archive_of json_data user (get_books_for_user viewer_aware (db w) user).1 |},
     Ok ()).
Proof.
  intros Ht Hq. unfold tar_export, archive_of. rewrite Ht, Hq.
  destruct (get_books_for_user viewer_aware (db w) user) as [eds bks].
  cbn [evaluate fst]. rewrite foldl_add_covers.
  by case_decide.
Qed.

(** *** The job row *)

Lemma save_jobs_export_data job_id job st :
  jobs (save ["export_data"] job_id job st)
  = alter (with_export_data (export_data job)) job_id (jobs st).
Proof. reflexivity. Qed.

Lemma save_jobs_status job_id job st :
  jobs (save ["status"] job_id job st) = alter (with_status (status job)) job_id (jobs st).
Proof. reflexivity. Qed.

(** The suite of the [try] only touches the table by its [save]. *)
Lemma export_try_inv w job_id job st job' st' outcome :
  export_try' w job_id job st = (job', st', outcome) →
  let st1 := {| jobs := alter (ui_update w) job_id (jobs st); trace := trace st |} in
  match outcome with
  | Ok _ => st' = save ["export_data"] job_id job' st1
  | Raise _ => st' = st1
  end.
Proof.
  intros H st1. unfold export_try in H.
  destruct (Job_user _ _) as [user|]; [|by injection H as <- <- <-].
  destruct (json_export _ _ _ _) as [json_data|]; [|by injection H as <- <- <-].
  destruct (tar_export _ _ _ _ _) as [file [[]|]]; [|by injection H as <- <- <-].
  destruct (save_raise _); by injection H as <- <- <-.
Qed.

(** The run of a job that is not complete, by the outcome of its [try]. *)
Lemma start_export_task_run w job_id job st job' st' outcome :
  jobs st !! job_id = Some job →
  complete job = false →
  export_try' w job_id job st = (job', st', outcome) →
  start_export_task' w job_id st
  = (match outcome with
     | Ok _ => (set_status "complete" job_id job' st').2
     | Raise err =>
         (set_status "complete" job_id
            (set_status "failed" job_id job' (record (Logged job_id err) st')).1
            (set_status "failed" job_id job' (record (Logged job_id err) st')).2).2
     end, Ok ()).
Proof.
  intros Hjob Hc Htry. unfold start_export_task. rewrite Hjob, Hc, Htry.
  by destruct outcome.
Qed.

Lemma status_updates_app tr1 tr2 :
  status_updates (tr1 ++ tr2) = (status_updates tr1 ++ status_updates tr2)%list.
Proof. apply omap_app. Qed.

(** On the success path the status is set once. *)
Lemma start_export_task_success_updates w job_id st job job' st' :
  jobs st !! job_id = Some job →
  complete job = false →
  export_try' w job_id job st = (job', st', Ok ()) →
  status_updates (trace (start_export_task' w job_id st).1)
  = (status_updates (trace st) ++ ["complete"])%list.
Proof.
  intros Hjob Hc Htry.
  rewrite (start_export_task_run _ _ _ _ _ _ _ Hjob Hc Htry).
  apply export_try_inv in Htry. simpl in Htry. subst st'. simpl.
  rewrite !status_updates_app. simpl. by rewrite !app_nil_r.
Qed.



(** C9: for a job whose [complete] flag is set, the task returns at once and
    leaves the state as it was: no row is written, no status set, nothing
    logged. *)
Theorem start_export_task_complete_noop (w : World) (job_id : Z) (st : State)
    (job : BookwyrmExportJob) :
  jobs st !! job_id = Some job →
  complete job = true →
  start_export_task' w job_id st = (st, Ok ()).
Proof.
  intros Hjob Hc. unfold start_export_task. by rewrite Hjob, Hc.
Qed.

(** C10: on the success path the job is saved with
    [update_fields=["export_data"]]: in the table as it is when the save is
    issued, the row of the job takes the [export_data] of the object and
    keeps every other field, and the other rows stay as they are. *)
Theorem export_save_only_export_data (w : World) (job_id : Z)
    (job : BookwyrmExportJob) (st : State) (job' : BookwyrmExportJob) (st' : State) :
  export_try' w job_id job st = (job', st', Ok ()) →
  ∃ before,
    jobs before = alter (ui_update w) job_id (jobs st)
    ∧ saved_export_data_only job_id job' before st'.
Proof.
  intros Htry. apply export_try_inv in Htry. cbv zeta in Htry.
  exists {| jobs := alter (ui_update w) job_id (jobs st); trace := trace st |}.
  split; [reflexivity|]. split; [exact Htry|]. subst st'.
  split; [reflexivity|]. split.
  - intros row Hrow. rewrite save_jobs_export_data, lookup_alter_eq, Hrow.
    eexists. split; [reflexivity|]. done.
  - intros j Hj. rewrite save_jobs_export_data. by apply lookup_alter_ne.
Qed.

End Task.

(** ** The entries of "books" *)

Lemma elem_of_Edition_authors db e a :
  a ∈ Edition_authors db e
  ↔ a ∈ authors db ∧ (edition_id e, author_id a) ∈ book_authors db.
Proof.
  unfold Edition_authors. rewrite list_elem_of_bind. split.
  - intros ([bid aid] & Ha & Hba).
    apply list_elem_of_filter in Ha as [Ha ?].
    apply list_elem_of_filter in Hba as [Hb ?]. simpl in *. by subst.
  - intros [Ha Hba]. exists (edition_id e, author_id a).
    split; by apply list_elem_of_filter.
Qed.

(** [Shelf.objects.filter(shelfbook__in=shelf_books, user=user)] *)
Lemma elem_of_shelves_from_books db uid bid s :
  primary_key shelfbook_id (shelfbooks db) →
  s ∈ (s ← shelves db;
       sb ← filter (λ sb, shelfbook_shelf sb = shelf_id s) (shelfbooks db);
       if decide (shelfbook_id sb
                    ∈ shelfbook_id
                        <$> distinct (filter (λ sb, shelfbook_user sb = uid
                                                    ∧ shelfbook_book sb = bid)
                                             (shelfbooks db))
                  ∧ shelf_user s = uid)
       then [s] else [])
  ↔ shelf_of_book db uid bid s.
Proof.
  intros Hpk. unfold shelf_of_book. rewrite list_elem_of_bind. split.
  - intros (s' & H & Hs').
    apply list_elem_of_bind in H as (sb & H & Hsb).
    case_decide as Hw; [|by apply elem_of_nil in H].
    apply list_elem_of_singleton in H as ->.
    apply list_elem_of_filter in Hsb as [Hshelf Hsb].
    destruct Hw as [Hin Hu].
    apply list_elem_of_fmap in Hin as (sb' & Hid & Hsb').
    apply elem_of_distinct, list_elem_of_filter in Hsb' as [[Hu' Hb'] Hsb'].
    assert (sb = sb') as <- by by eapply primary_key_inj.
    split_and!; [done..|]. by exists sb.
  - intros (Hs & Hu & sb & Hsb & Hshelf & Hu' & Hb).
    exists s. split; [|done].
    apply list_elem_of_bind. exists sb. split; [|by apply list_elem_of_filter].
    rewrite decide_True; [by apply list_elem_of_singleton|].
    split; [|done].
    apply list_elem_of_fmap_2, elem_of_distinct, list_elem_of_filter. done.
Qed.

(** [List.objects.filter(books__in=[id], user=user).distinct()] *)
Lemma elem_of_book_lists db uid bid l :
  l ∈ distinct (l ← lists db;
                li ← filter (λ li, listitem_book_list li = list_id l) (listitems db);
                if decide (listitem_book li ∈ [bid] ∧ list_user l = uid)
                then [l] else [])
  ↔ list_of_book db uid bid l.
Proof.
  unfold list_of_book. rewrite elem_of_distinct, list_elem_of_bind. split.
  - intros (l' & H & Hl').
    apply list_elem_of_bind in H as (li & H & Hli).
    case_decide as Hw; [|by apply elem_of_nil in H].
    apply list_elem_of_singleton in H as ->.
    apply list_elem_of_filter in Hli as [Hlist Hli].
    destruct Hw as [Hb%list_elem_of_singleton Hu].
    split_and!; [done..|]. by exists li.
  - intros (Hl & Hu & li & Hli & Hlist & Hb).
    exists l. split; [|done].
    apply list_elem_of_bind. exists li. split; [|by apply list_elem_of_filter].
    rewrite decide_True; [by apply list_elem_of_singleton|].
    split; [by apply list_elem_of_singleton | done].
Qed.

Lemma holds_rows_intro {A} (entry : dict) key (vals : A → columns) (P : A → Prop) rows :
  dict_get key entry = Some (rows_value (vals <$> rows)) →
  (∀ r, r ∈ rows ↔ P r) →
  holds_rows entry key vals P.
Proof. intros. by exists rows. Qed.

Ltac dict_lookup :=
  repeat (rewrite dict_get_set_ne by done); apply dict_get_set_eq.

(** One turn of the loop builds an entry that meets [book_entry_spec]: of
    the shelves and lists of one name the last keeps its items, and the
    items of a shelf are those of the user. *)
Lemma book_entry_meets_spec db user editions b entry :
  primary_key shelfbook_id (shelfbooks db) →
  book_entry db user editions b = Ok entry →
  book_entry_spec (@last_of_name) (shelf_item_of db (user_id user))
    db user editions b entry.
Proof.
  intros Hpk H. unfold book_entry in H.
  remember (row_dict (Book_values b)) as book eqn:Hbook.
  destruct (filter (λ e, edition_id e = book_id b) editions) as [|e0 rest] eqn:Hed;
    [done|].
  cbn [index0 mbind result_bind] in H.
  destruct (first edition_id (e0 :: rest)) as [e1|] eqn:H1; [|done].
  cbn [mbind result_bind] in H. injection H as <-.
  assert (He0 : e0 ∈ editions ∧ edition_id e0 = book_id b).
  { assert (He : e0 ∈ filter (λ e, edition_id e = book_id b) editions)
      by (rewrite Hed; by left).
    apply list_elem_of_filter in He. tauto. }
  assert (He1 : e1 ∈ editions ∧ edition_id e1 = book_id b).
  { apply first_elem_of in H1. rewrite <- Hed in H1.
    apply list_elem_of_filter in H1. tauto. }
  unfold book_entry_spec. split_and!.
  - intros k Hk. unfold nested_keys in Hk.
    repeat (rewrite dict_get_set_ne;
            [|intros ->; apply Hk; repeat (first [by left | right])]).
    by rewrite Hbook.
  - exists e0. split_and!; [tauto | tauto | dict_lookup].
  - exists e1. split_and!; [tauto | tauto |].
    eapply holds_rows_intro; [dict_lookup|].
    intros a. apply elem_of_Edition_authors.
  - eapply holds_rows_intro; [dict_lookup|].
    intros r. rewrite elem_of_distinct, list_elem_of_filter. tauto.
  - eexists _, _. split; [dict_lookup|].
    split; [intros s; by apply elem_of_shelves_from_books|].
    split; [dict_lookup|].
    match goal with
    | |- context [foldl ?f [] ?xs] =>
        destruct (dict_filled identifier
          (λ shelf, rows_value (ShelfBook_values <$>
             distinct (filter (λ sb, shelfbook_user sb = user_id user
                                     ∧ shelfbook_shelf sb = shelf_id shelf)
                              (shelfbooks db)))) xs []) as [Hkeys _]
    end.
    split.
    + intros k. rewrite Hkeys.
      split; [intros [H|H]; [by apply elem_of_nil in H | done] | by right].
    + intros s Hs. unfold last_of_name in Hs.
      eexists. split.
      * rewrite (dict_filled_last identifier
          (λ shelf, rows_value (ShelfBook_values <$>
             distinct (filter (λ sb, shelfbook_user sb = user_id user
                                     ∧ shelfbook_shelf sb = shelf_id shelf)
                              (shelfbooks db))))).
        rewrite Hs. reflexivity.
      * intros i. unfold shelf_item_of.
        rewrite elem_of_distinct, list_elem_of_filter. tauto.
  - eexists _, _. split; [dict_lookup|].
    split; [intros l; apply elem_of_book_lists|].
    split; [dict_lookup|].
    match goal with
    | |- context [foldl ?f [] ?xs] =>
        destruct (dict_filled list_name
          (λ blist, rows_value (ListItem_values <$>
             distinct (filter (λ li, listitem_book_list li = list_id blist)
                              (listitems db)))) xs []) as [Hkeys _]
    end.
    split.
    + intros k. rewrite Hkeys.
      split; [intros [H|H]; [by apply elem_of_nil in H | done] | by right].
    + intros l Hl. unfold last_of_name in Hl.
      eexists. split.
      * rewrite (dict_filled_last list_name
          (λ blist, rows_value (ListItem_values <$>
             distinct (filter (λ li, listitem_book_list li = list_id blist)
                              (listitems db))))).
        rewrite Hl. reflexivity.
      * intros i. unfold list_item.
        rewrite elem_of_distinct, list_elem_of_filter. tauto.
  - eapply holds_rows_intro; [dict_lookup|].
    intros r. unfold status_of_book. rewrite elem_of_distinct, list_elem_of_filter. tauto.
  - eapply holds_rows_intro; [dict_lookup|].
    intros r. unfold status_of_book. rewrite elem_of_distinct, list_elem_of_filter. tauto.
  - eapply holds_rows_intro; [dict_lookup|].
    intros r. unfold status_of_book. rewrite elem_of_distinct, list_elem_of_filter. tauto.
Qed.

Section Books.

Variable DOMAIN : string.
Variable viewer_aware : User → Edition → bool.

(** C8 (amended): for every book that [get_books_for_user] returns, the
    entry of "books" at its position is the flat field mapping of the book
    extended with the ten nested keys: "edition" and "authors" of an edition
    of the user with the id of the book; "readthroughs", "shelves", "lists",
    "reviews", "comments" and "quotes" restricted to the user and the book;
    "list_items", whose keys are the names of the matched lists, with under
    a name every item of the last list of that name in "lists"; and
    "shelf_books", whose keys are the identifiers of the matched shelves,
    with under an identifier every item that belongs to the user of the last
    shelf of that identifier in "shelves".  The ids of the [ShelfBook] table
    are a primary key. *)
Theorem json_export_books_entries (w : World) (user : User) (data : dict) :
  primary_key shelfbook_id (shelfbooks (db w)) →
  json_export_data DOMAIN viewer_aware w user = Ok data →
  books_payload_spec (@last_of_name) (shelf_item_of (db w) (user_id user)) (db w) user
    (get_books_for_user viewer_aware (db w) user).1
    (get_books_for_user viewer_aware (db w) user).2 data.
Proof.
  intros Hpk Hdata.
  apply json_export_data_inv in Hdata as (final_books & _ & Hall & ->).
  exists final_books. split; [reflexivity|].
  eapply Forall2_impl; [exact Hall|].
  intros b entry Hentry. by apply book_entry_meets_spec.
Qed.

End Books.

(** ** The sample instance *)

Import Sample.

Lemma sample_primary_keys :
  primary_key shelfbook_id (shelfbooks sample_db)
  ∧ primary_key relationship_id (userfollows sample_db)
  ∧ primary_key relationship_id (userblocks sample_db).
Proof. unfold primary_key. split_and!; apply (bool_decide_unpack _); by vm_compute. Qed.

Lemma kept_singleton :
  (∀ A (name : A → string) (x : A), every_row name [x] x)
  ∧ (∀ A (name : A → string) (x : A), last_of_name name [x] x).
Proof.
  split; intros A name x.
  - by apply list_elem_of_singleton.
  - unfold last_of_name. rewrite filter_cons, decide_True by done. done.
Qed.

(** Alice owns the shelf "to-read", which holds a book she put there and a
    book bob put there; the entry of her book lists under "to-read" only the
    item that is hers. *)
Lemma collide_shelf_books (kept : ∀ A, (A → string) → list A → A → Prop) data :
  (∀ A (name : A → string) (x : A), kept A name [x] x) →
  json_export_data "example.net" all_editions collide_world alice = Ok data →
  ¬ books_payload_spec kept (shelf_item collide_db) collide_db alice
      (get_books_for_user all_editions collide_db alice).1
      (get_books_for_user all_editions collide_db alice).2 data.
Proof.
  intros Hkept Hdata (entries & Hget & Hall).
  vm_compute in Hdata. injection Hdata as <-.
  injection Hget as Hentries.
  destruct entries as [|entry1 [|entry2 [|? ?]]]; try discriminate Hentries.
  injection Hentries as <- <-.
  vm_compute get_books_for_user in Hall.
  apply Forall2_cons in Hall as [Hspec _].
  destruct Hspec as (_ & _ & _ & _ & (rows & d & Hrows & _ & Hd & _ & Hitems) & _).
  injection Hd as <-. injection Hrows as Hrows.
  destruct rows as [|s [|? ?]]; try discriminate Hrows.
  destruct s as [sid suser sname scols]. simpl in Hrows.
  injection Hrows as <- <- <- Hcols.
  destruct scols; [clear Hcols | discriminate Hcols].
  destruct (Hitems _ (Hkept _ _ _)) as (items & Hv & Hin).
  set (mine := {| shelfbook_id := 1000; shelfbook_user := 1; shelfbook_book := 100;
                  shelfbook_shelf := 10; shelfbook_cols := [] |}).
  set (bobs := {| shelfbook_id := 1001; shelfbook_user := 2; shelfbook_book := 101;
                  shelfbook_shelf := 10; shelfbook_cols := [] |}).
  assert (Hmine : mine ∈ items).
  { apply Hin. split; [|done]. vm_compute. by left. }
  assert (Hbobs : bobs ∈ items).
  { apply Hin. split; [|done]. vm_compute. right. by left. }
  injection Hv as Hv.
  destruct items as [|r [|r' items]]; try discriminate Hv.
  apply list_elem_of_singleton in Hmine, Hbobs. subst mine bobs. congruence.
Qed.

(** Alice has two lists named "favourites" that hold the book 100; the
    entry of the book lists under "favourites" the one item of the second
    list, and not the two items of the first. *)
Lemma collide_list_items (items : Shelf → ShelfBook → Prop) data :
  json_export_data "example.net" all_editions collide_world alice = Ok data →
  ¬ books_payload_spec (@every_row) items collide_db alice
      (get_books_for_user all_editions collide_db alice).1
      (get_books_for_user all_editions collide_db alice).2 data.
Proof.
  intros Hdata (entries & Hget & Hall).
  vm_compute in Hdata. injection Hdata as <-.
  injection Hget as Hentries.
  destruct entries as [|entry1 [|entry2 [|? ?]]]; try discriminate Hentries.
  injection Hentries as <- <-.
  vm_compute get_books_for_user in Hall.
  apply Forall2_cons in Hall as [Hspec _].
  destruct Hspec as (_ & _ & _ & _ & _ & (rows & d & Hrows & _ & Hd & _ & Hitems) & _).
  injection Hd as <-. injection Hrows as Hrows.
  destruct rows as [|l [|l' [|? ?]]]; try discriminate Hrows.
  destruct l as [lid luser lname lremote lcols]. simpl in Hrows.
  injection Hrows as <- <- <- <- Hcols _ _ _ _ _.
  destruct lcols; [clear Hcols | discriminate Hcols].
  destruct (Hitems _ (list_elem_of_here _ _)) as (its & Hv & Hin).
  set (one := {| listitem_id := 1; listitem_book_list := 20; listitem_book := 100;
                 listitem_cols := [] |}).
  set (two := {| listitem_id := 2; listitem_book_list := 20; listitem_book := 101;
                 listitem_cols := [] |}).
  assert (Hone : one ∈ its).
  { apply Hin. split; [|done]. vm_compute. by left. }
  assert (Htwo : two ∈ its).
  { apply Hin. split; [|done]. vm_compute. right. by left. }
  injection Hv as Hv.
  destruct its as [|r [|r' its]]; try discriminate Hv.
  apply list_elem_of_singleton in Hone, Htwo. subst one two. congruence.
Qed.

(** C8, as it is stated, fails, and on two counts.  With every item of a
    matched shelf under its identifier the entries are not those of the
    code, whichever shelves keep their items: the items of another user are
    left out.  With every matched list keeping its items under its name they
    are not those of the code either, whichever items a shelf holds: a list
    of the same name replaces them. *)
Lemma json_export_keyed_not_every_item :
  primary_key shelfbook_id (shelfbooks collide_db)
  ∧ ∃ data,
      json_export_data "example.net" all_editions collide_world alice = Ok data
      ∧ ¬ books_payload_spec (@every_row) (shelf_item collide_db) collide_db alice
            (get_books_for_user all_editions collide_db alice).1
            (get_books_for_user all_editions collide_db alice).2 data
      ∧ ¬ books_payload_spec (@last_of_name) (shelf_item collide_db) collide_db alice
            (get_books_for_user all_editions collide_db alice).1
            (get_books_for_user all_editions collide_db alice).2 data
      ∧ ¬ books_payload_spec (@every_row) (shelf_item_of collide_db (user_id alice))
            collide_db alice
            (get_books_for_user all_editions collide_db alice).1
            (get_books_for_user all_editions collide_db alice).2 data.
Proof.
  split; [apply sample_primary_keys|].
  destruct (json_export_data_returns "example.net" all_editions collide_world alice
              eq_refl) as [data Hdata].
  exists data. split; [done|]. split_and!.
  - apply collide_shelf_books; [apply kept_singleton | done].
  - apply collide_shelf_books; [apply kept_singleton | done].
  - by apply collide_list_items.
Qed.

(** The theorems above, at the sample instance. *)

Lemma json_export_follows_blocks_sample :
  ∃ data,
    json_export_data "example.net" all_editions (world no_faults) alice = Ok data
    ∧ follows_blocks_spec sample_db alice data.
Proof.
  eexists. split; [vm_compute; reflexivity|].
  apply (json_export_follows_blocks "example.net" all_editions (world no_faults) alice).
  - apply sample_primary_keys.
  - apply sample_primary_keys.
  - vm_compute. reflexivity.
Defined.



Lemma tar_export_archive_sample :
  tar_export all_editions (world no_faults) "{}" alice
    {| file_name := "0b1e"; file_content := [] |}
  = ({| file_name := "0b1e";
        file_content :=
          archive_of "{}" alice (get_books_for_user all_editions sample_db alice).1 |},
     Ok ()).
Proof.
  apply (tar_export_archive all_editions (world no_faults) "{}" alice
           {| file_name := "0b1e"; file_content := [] |}); reflexivity.
Defined.



Lemma start_export_task_complete_noop_sample :
  start_export_task "example.net" all_editions (world no_faults) 7 (state_of stopped_job)
  = (state_of stopped_job, Ok ()).
Proof.
  apply (start_export_task_complete_noop "example.net" all_editions (world no_faults) 7
           (state_of stopped_job) stopped_job).
  - vm_compute. reflexivity.
  - reflexivity.
Defined.

Lemma export_save_only_export_data_sample :
  ∃ job' st',
    export_try "example.net" all_editions world_stopping 7 pending_job
      (state_of pending_job) = (job', st', Ok ())
    ∧ ∃ before,
        jobs before = alter (ui_update world_stopping) 7 (jobs (state_of pending_job))
        ∧ saved_export_data_only 7 job' before st'.
Proof.
  eexists _, _. split; [vm_compute; reflexivity|].
  apply (export_save_only_export_data "example.net" all_editions world_stopping 7
           pending_job (state_of pending_job)).
  vm_compute. reflexivity.
Defined.

Lemma json_export_books_entries_sample :
  ∃ data,
    json_export_data "example.net" all_editions collide_world alice = Ok data
    ∧ books_payload_spec (@last_of_name) (shelf_item_of collide_db (user_id alice))
        collide_db alice
        (get_books_for_user all_editions collide_db alice).1
        (get_books_for_user all_editions collide_db alice).2 data.
Proof.
  eexists. split; [vm_compute; reflexivity|].
  apply (json_export_books_entries "example.net" all_editions collide_world alice).
  - apply sample_primary_keys.
  - vm_compute. reflexivity.
Defined.

(** Two runs of the task on the sample instance. *)

(** The archive cannot be written: the error is logged, the status set to
    "failed" and then to "complete". *)
Example failing_run_trace :
  trace (start_export_task "example.net" all_editions (world archive_fails) 7
           (state_of pending_job)).1
  = [ Logged 7 OSError; StatusSet 7 "failed"; Saved 7 ["status"];
      StatusSet 7 "complete"; Saved 7 ["status"] ].
Proof. vm_compute. reflexivity. Qed.

Example failing_run_row :
  jobs (start_export_task "example.net" all_editions (world archive_fails) 7
          (state_of pending_job)).1 !! 7
  = Some {| job_user := 1; complete := false; status := "complete";
            export_data := None |}.
Proof. vm_compute. reflexivity. Qed.

(** The UI stops the job while the export is built: the save of
    [export_data] keeps the flag the UI has set. *)
Example stopped_run_row :
  (λ row, (complete row, file_name <$> export_data row))
    <$> jobs (start_export_task "example.net" all_editions world_stopping 7
                (state_of pending_job)).1 !! 7
  = Some (true, Some "0b1e").
Proof. vm_compute. reflexivity. Qed.

Example stopped_run_trace :
  trace (start_export_task "example.net" all_editions world_stopping 7
           (state_of pending_job)).1
  = [ Saved 7 ["export_data"]; StatusSet 7 "complete"; Saved 7 ["status"] ].
Proof. vm_compute. reflexivity. Qed.

(** ** More on json_export *)

Section JsonExportMore.

Variable DOMAIN : string.
Variable viewer_aware : User → Edition → bool.

(** The exported profile has the ten keys of [vals], in their order, each
    with the attribute of the user; the key "avatar" comes last, and only
    for a user whose avatar is truthy. *)
Theorem exported_user_entries (user : User) :
  dict_keys (exported_user DOMAIN user)
  = (vals ++ if decide (truthy (avatar user)) then ["avatar"] else [])%list
  ∧ (∀ k, k ∈ vals →
       dict_get k (exported_user DOMAIN user) = Some (VAtom (User_getattr user k)))
  ∧ dict_get "avatar" (exported_user DOMAIN user)
    = if decide (truthy (avatar user))
      then Some (VStr ("https://" +:+ DOMAIN +:+ img_url (avatar user)))
      else None.
Proof.
  unfold exported_user. split_and!.
  - by case_decide.
  - intros k Hk. unfold vals in Hk.
    repeat (apply elem_of_cons in Hk as [->|Hk]; [by case_decide|]).
    by apply elem_of_nil in Hk.
  - by case_decide.
Qed.

(** When the iterator over the goals does not raise, "goals" lists the goals
    of the user, each row once, and no goal of another user. *)
Theorem json_export_goals_exact (w : World) (user : User) (data : dict) :
  goals_raise (faults w) = None →
  json_export_data DOMAIN viewer_aware w user = Ok data →
  ∃ goals,
    dict_get "goals" data = Some (VList (goal_entry <$> goals))
    ∧ NoDup goals
    ∧ ∀ g, g ∈ goals ↔ g ∈ annualgoals (db w) ∧ goal_user g = user_id user.
Proof.
  intros Hg Hdata. apply json_export_data_goals in Hdata.
  unfold goals_so_far in Hdata. rewrite Hg in Hdata.
  eexists. split; [exact Hdata|]. split; [apply NoDup_distinct|].
  intros g. rewrite elem_of_distinct, list_elem_of_filter. tauto.
Qed.

(** When the iterator raises, the goals exported are a prefix of the goals
    that are exported when it does not. *)
Theorem json_export_goals_prefix (w : World) (user : User) (data data0 : dict) :
  json_export_data DOMAIN viewer_aware w user = Ok data →
  json_export_data DOMAIN viewer_aware (without_guarded_faults w) user = Ok data0 →
  ∃ goals goals0,
    dict_get "goals" data = Some (VList goals)
    ∧ dict_get "goals" data0 = Some (VList goals0)
    ∧ goals `prefix_of` goals0.
Proof.
  intros Hdata%json_export_data_goals Hdata0%json_export_data_goals.
  eexists _, _. split; [exact Hdata|]. split; [exact Hdata0|].
  unfold goals_so_far. cbn [without_guarded_faults db faults goals_raise].
  destruct (goals_raise (faults w)) as [n|]; [|done].
  rewrite fmap_take. apply prefix_take.
Qed.

(** "saved_lists" holds exactly the remote ids of the lists the user has
    saved. *)
Theorem json_export_saved_lists (w : World) (user : User) (data : dict) :
  json_export_data DOMAIN viewer_aware w user = Ok data →
  ∃ saved,
    dict_get "saved_lists" data = Some (VList (VStr <$> saved))
    ∧ ∀ rid, rid ∈ saved
        ↔ ∃ l, l ∈ lists (db w)
               ∧ (user_id user, list_id l) ∈ user_saved_lists (db w)
               ∧ list_remote_id l = rid.
Proof.
  intros (final_books & _ & _ & ->)%json_export_data_inv.
  eexists. split; [reflexivity|].
  intros rid. rewrite list_elem_of_fmap. split.
  - intros (l & -> & Hl). exists l.
    apply elem_of_distinct, list_elem_of_filter in Hl as [Hin Hl].
    split_and!; [done | | done].
    apply list_elem_of_fmap in Hin as (l' & Hid & Hl').
    apply list_elem_of_bind in Hl' as ([u i] & Hl' & Hp).
    apply list_elem_of_filter in Hl' as [Hi _].
    apply list_elem_of_filter in Hp as [Hu Hp]. simpl in Hi, Hu.
    by rewrite Hid, Hi, <- Hu.
  - intros (l & Hl & Hsaved & <-). exists l. split; [done|].
    apply elem_of_distinct, list_elem_of_filter. split; [|done].
    apply list_elem_of_fmap_2, list_elem_of_bind.
    exists (user_id user, list_id l). split; by apply list_elem_of_filter.
Qed.

(** [json_export] raises only when an unguarded query does, and then the
    error of the database: [[0]] and [first()] never fail on the books of
    [get_books_for_user], and the guarded failures are swallowed. *)
Theorem json_export_raises_iff (w : World) (user : User) (e : exn) :
  json_export DOMAIN viewer_aware w user = Raise e
  ↔ query_raise (faults w) = true ∧ e = DatabaseError.
Proof.
  split.
  - intros Hr. destruct (query_raise (faults w)) eqn:Hq.
    + split; [done|]. unfold json_export, json_export_data in Hr.
      destruct (get_books_for_user viewer_aware (db w) user) as [eds bks].
      rewrite Hq in Hr. simpl in Hr. by injection Hr as <-.
    + destruct (json_export_data_returns DOMAIN viewer_aware w user Hq) as [data Hdata].
      unfold json_export in Hr. by rewrite Hdata in Hr.
  - intros [Hq ->]. unfold json_export, json_export_data.
    destruct (get_books_for_user viewer_aware (db w) user) as [eds bks].
    by rewrite Hq.
Qed.

End JsonExportMore.

(** ** More on the entries of "books" and on get_books_for_user *)

Lemma first_same_key {A} (pk : A → Z) (rows : list A) (c : Z) :
  (∀ x, x ∈ rows → pk x = c) → first pk rows = head rows.
Proof.
  induction rows as [|x rows IH]; intros Hc; [done|].
  simpl. fold (first pk rows). rewrite IH by (intros y Hy; apply Hc; by right).
  destruct rows as [|y rows]; [done|]. simpl.
  rewrite decide_True; [done|].
  rewrite (Hc x), (Hc y); [done | right; by left | by left].
Qed.

(** [edition.values()[0]] and [edition.first()] are the same edition, the
    first one with the id of the book: the entries "edition" and "authors"
    of a book speak of one edition. *)
Theorem book_entry_one_edition (db : Database) (user : User)
    (editions : list Edition) (b : Book) (entry : dict) :
  book_entry db user editions b = Ok entry →
  ∃ e,
    head (filter (λ e, edition_id e = book_id b) editions) = Some e
    ∧ dict_get "edition" entry = Some (VDict (row_dict (Edition_values e)))
    ∧ dict_get "authors" entry
      = Some (rows_value (Author_values <$> Edition_authors db e)).
Proof.
  intros H. unfold book_entry in H.
  remember (row_dict (Book_values b)) as book eqn:Hbook.
  pose proof (first_same_key edition_id
                (filter (λ e, edition_id e = book_id b) editions) (book_id b)) as Hfirst.
  rewrite Hfirst in H by (by intros x [? _]%list_elem_of_filter).
  destruct (filter (λ e, edition_id e = book_id b) editions) as [|e0 rest] eqn:Hed;
    [done|].
  cbn [index0 head mbind result_bind] in H. injection H as <-.
  exists e0. split; [done|]. split; dict_lookup.
Qed.

(** A turn of the loop raises only when no edition at hand has the id of the
    book, and then [IndexError], from [edition.values()[0]]. *)
Theorem book_entry_raises_iff (db : Database) (user : User)
    (editions : list Edition) (b : Book) (e : exn) :
  book_entry db user editions b = Raise e
  ↔ (∀ ed, ed ∈ editions → edition_id ed ≠ book_id b) ∧ e = IndexError.
Proof.
  unfold book_entry.
  destruct (filter (λ e, edition_id e = book_id b) editions) as [|e0 rest] eqn:Hed.
  - cbn [index0 mbind result_bind]. split.
    + intros [= <-]. split; [|done]. intros ed Hed' Hid.
      assert (ed ∈ filter (λ e, edition_id e = book_id b) editions) as Hin
        by by apply list_elem_of_filter.
      rewrite Hed in Hin. by apply elem_of_nil in Hin.
    + by intros [_ ->].
  - cbn [index0 mbind result_bind].
    destruct (first_is_Some edition_id (e0 :: rest)) as [e1 ->]; [done|].
    cbn [mbind result_bind]. split; [done|].
    intros [Hno _]. exfalso.
    assert (e0 ∈ filter (λ e, edition_id e = book_id b) editions) as Hin
      by (rewrite Hed; by left).
    apply list_elem_of_filter in Hin as [Hid Hin]. by apply (Hno e0).
Qed.

Section GetBooksMore.

Variable viewer_aware : User → Edition → bool.

(** [get_books_for_user] returns no edition and no book exactly for a user
    to whom no viewer-aware edition is related. *)
Theorem get_books_for_user_nothing (db : Database) (user : User) :
  get_books_for_user viewer_aware db user = ([], [])
  ↔ ∀ e, e ∈ viewer_aware_objects viewer_aware db user → ¬ related db user e.
Proof.
  split.
  - intros Hnil e He Hrel.
    assert (e ∈ (get_books_for_user viewer_aware db user).1) as Hin
      by by apply elem_of_get_books_editions.
    rewrite Hnil in Hin. by apply elem_of_nil in Hin.
  - intros Hno.
    assert ((get_books_for_user viewer_aware db user).1 = []) as Heds.
    { apply elem_of_nil_inv. intros e [He Hrel]%elem_of_get_books_editions.
      by apply (Hno e). }
    assert ((get_books_for_user viewer_aware db user).2 = []) as Hbks.
    { apply elem_of_nil_inv. intros b [_ Hb]%elem_of_get_books_books.
      rewrite Heds in Hb. by apply elem_of_nil in Hb. }
    rewrite (surjective_pairing (get_books_for_user viewer_aware db user)).
    by rewrite Heds, Hbks.
Qed.

(** *** tar_export, when something raises *)

Lemma tar_export_content w json_data user file :
  tar_raise (faults w) = false →
  file_content (tar_export viewer_aware w json_data user file).1
  = (write_bytes (utf8 json_data)
     :: (if decide (truthy (avatar user))
         then [add_image (avatar user) (Some "avatar")] else [])
     ++ (if query_raise (faults w) then []
         else (λ e, add_image (cover (edition_book e)) None)
                <$> filter (λ e, truthy (cover (edition_book e)))
                           (get_books_for_user viewer_aware (db w) user).1))%list.
Proof.
  intros Ht. unfold tar_export. rewrite Ht.
  destruct (get_books_for_user viewer_aware (db w) user) as [eds bks].
  destruct (query_raise (faults w)); cbn [evaluate fst file_content].
  - rewrite app_nil_r. by case_decide.
  - rewrite foldl_add_covers. by case_decide.
Qed.

(** When the archive can be written and the query for the editions
    raises, [tar_export] raises the error of the query; the payload and the
    avatar, if it is truthy, have been written by then, and no cover. *)
Theorem tar_export_query_raises (w : World) (json_data : string) (user : User)
    (file : ContentFile) :
  tar_raise (faults w) = false →
  query_raise (faults w) = true →
  tar_export viewer_aware w json_data user file
  = ({| file_name := file_name file;
        file_content :=
          (write_bytes (utf8 json_data)
           :: if decide (truthy (avatar user))
              then [add_image (avatar user) (Some "avatar")] else [])%list |},
     Raise DatabaseError).
Proof.
  intros Ht Hq. unfold tar_export. rewrite Ht, Hq.
  destruct (get_books_for_user viewer_aware (db w) user) as [eds bks].
  cbn [evaluate]. by case_decide.
Qed.

(** Every image in the archive is truthy, and is the avatar of the user,
    under the name "avatar", or the cover of a viewer-aware edition that is
    related to the user: no image of anything else gets in. *)
Theorem tar_export_images (w : World) (json_data : string) (user : User)
    (file : ContentFile) (image : ImageFieldFile) (filename : option string) :
  tar_raise (faults w) = false →
  add_image image filename
    ∈ file_content (tar_export viewer_aware w json_data user file).1 →
  truthy image
  ∧ ((image = avatar user ∧ filename = Some "avatar")
     ∨ (filename = None
        ∧ ∃ e, e ∈ viewer_aware_objects viewer_aware (db w) user
               ∧ related (db w) user e
               ∧ image = cover (edition_book e))).
Proof.
  intros Ht Hin. rewrite tar_export_content in Hin by done.
  apply elem_of_cons in Hin as [?|Hin]; [done|].
  apply elem_of_app in Hin as [Hin|Hin].
  - case_decide as Hav; [|by apply elem_of_nil in Hin].
    apply list_elem_of_singleton in Hin. injection Hin as -> ->.
    split; [done|]. by left.
  - destruct (query_raise (faults w)); [by apply elem_of_nil in Hin|].
    apply list_elem_of_fmap in Hin as (ed & [= -> ->] & Hed).
    apply list_elem_of_filter in Hed as [Hcover Hed].
    apply elem_of_get_books_editions in Hed as [Hed Hrel].
    split; [done|]. right. split; [done|]. by exists ed.
Qed.

End GetBooksMore.

(** ** More on start_export_task *)

Section TaskMore.

Variable DOMAIN : string.
Variable viewer_aware : User → Edition → bool.

Lemma tar_export_result w json_data user file :
  (tar_export viewer_aware w json_data user file).2
  = if tar_raise (faults w) then Raise OSError
    else if query_raise (faults w) then Raise DatabaseError else Ok ().
Proof.
  unfold tar_export. destruct (tar_raise (faults w)); [done|].
  destruct (get_books_for_user viewer_aware (db w) user) as [eds bks].
  by destruct (query_raise (faults w)).
Qed.

Lemma tar_export_name w json_data user file :
  file_name (tar_export viewer_aware w json_data user file).1 = file_name file.
Proof.
  unfold tar_export. destruct (tar_raise (faults w)); [done|].
  destruct (get_books_for_user viewer_aware (db w) user) as [eds bks].
  by destruct (query_raise (faults w)).
Qed.

Lemma json_export_result w user :
  (query_raise (faults w) = false ∧ returns (json_export DOMAIN viewer_aware w user))
  ∨ (query_raise (faults w) = true
     ∧ json_export DOMAIN viewer_aware w user = Raise DatabaseError).
Proof.
  destruct (query_raise (faults w)) eqn:Hq.
  - right. split; [done|]. unfold json_export, json_export_data.
    destruct (get_books_for_user viewer_aware (db w) user) as [eds bks].
    by rewrite Hq.
  - left. split; [done|].
    destruct (json_export_data_returns DOMAIN viewer_aware w user Hq) as [data Hdata].
    unfold json_export. rewrite Hdata. by eexists.
Qed.

Lemma Job_user_with_export_data db f job :
  Job_user db (with_export_data f job) = Job_user db job.
Proof. reflexivity. Qed.

(** How the suite of the [try] ends. *)
Lemma export_try_outcome w job_id job st :
  (export_try DOMAIN viewer_aware w job_id job st).2
  = match Job_user (db w) job with
    | Raise e => Raise e
    | Ok user =>
        if query_raise (faults w) then Raise DatabaseError
        else if tar_raise (faults w) then Raise OSError
        else if save_raise (faults w) then Raise DatabaseError
        else Ok ()
    end.
Proof.
  unfold export_try. cbv zeta. rewrite Job_user_with_export_data.
  destruct (Job_user (db w) job) as [user|]; [|reflexivity].
  destruct (json_export_result w user) as [[Hq [json_data Hj]]|[Hq Hj]];
    rewrite Hj, Hq; [|reflexivity].
  pose proof (tar_export_result w json_data user
                {| file_name := uuid4 w; file_content := [] |}) as Hr.
  rewrite Hq in Hr.
  destruct (tar_export _ _ _ _ _) as [file r]. simpl in Hr. subst r.
  destruct (tar_raise (faults w)); [done|].
  by destruct (save_raise (faults w)).
Qed.

(** The export succeeds exactly when the user of the job has a row and
    neither an unguarded query, nor the archive, nor the save raises: a
    failure of the two guarded operations of [json_export] never fails it. *)
Theorem export_try_succeeds_iff (w : World) (job_id : Z) (job : BookwyrmExportJob)
    (st : State) :
  (export_try DOMAIN viewer_aware w job_id job st).2 = Ok ()
  ↔ returns (Job_user (db w) job)
    ∧ query_raise (faults w) = false
    ∧ tar_raise (faults w) = false
    ∧ save_raise (faults w) = false.
Proof.
  rewrite export_try_outcome. unfold returns.
  destruct (Job_user (db w) job) as [user|e].
  - destruct (query_raise (faults w)), (tar_raise (faults w)), (save_raise (faults w));
      split; try done; try (by intros (_ & ? & ? & ?)).
    intros _. split; [by exists user | done].
  - split; [done | by intros ([? ?] & _)].
Qed.

(** For an id that no job has, [objects.get] raises [DoesNotExist] before
    the [try]: the task raises it and changes nothing. *)
Theorem start_export_task_missing_job (w : World) (job_id : Z) (st : State) :
  jobs st !! job_id = None →
  start_export_task DOMAIN viewer_aware w job_id st = (st, Raise DoesNotExist).
Proof.
  intros Hjob. unfold start_export_task. by rewrite Hjob.
Qed.

(** The rows of the other jobs are never touched. *)
Theorem start_export_task_other_jobs (w : World) (job_id : Z) (st : State) (j : Z) :
  j ≠ job_id →
  jobs (start_export_task DOMAIN viewer_aware w job_id st).1 !! j = jobs st !! j.
Proof.
  intros Hj. unfold start_export_task.
  destruct (jobs st !! job_id) as [job|] eqn:Hjob; [|done].
  destruct (complete job); [done|].
  destruct (export_try _ _ _ _ _ _) as [[job' st'] outcome] eqn:Htry.
  apply export_try_inv in Htry. cbv zeta in Htry.
  destruct outcome as [[]|err]; subst st';
    unfold set_status, save, record; cbn [fst snd jobs];
    by rewrite !lookup_alter_ne.
Qed.

(** When the export succeeds, the row of the job ends with the file named
    by [uuid4()] that holds the archive of the payload of the user of the
    job. *)
Theorem start_export_task_exports (w : World) (job_id : Z) (st : State)
    (job : BookwyrmExportJob) (user : User) :
  jobs st !! job_id = Some job →
  complete job = false →
  Job_user (db w) job = Ok user →
  query_raise (faults w) = false →
  tar_raise (faults w) = false →
  save_raise (faults w) = false →
  ∃ json_data,
    json_export DOMAIN viewer_aware w user = Ok json_data
    ∧ export_data <$> jobs (start_export_task DOMAIN viewer_aware w job_id st).1 !! job_id
      = Some (Some {| file_name := uuid4 w;
                      file_content :=
                        archive_of json_data user
                          (get_books_for_user viewer_aware (db w) user).1 |}).
Proof.
  intros Hjob Hc Hu Hq Ht Hs.
  destruct (json_export_result w user) as [[_ [json_data Hj]]|[Hq' _]];
    [|by rewrite Hq in Hq'].
  exists json_data. split; [done|].
  set (file0 := {| file_name := uuid4 w; file_content := [] |}).
  pose proof (tar_export_result w json_data user file0) as Hr.
  pose proof (tar_export_name w json_data user file0) as Hn.
  pose proof (tar_export_content viewer_aware w json_data user file0 Ht) as Hcont.
  rewrite Ht, Hq in Hr. rewrite Hq in Hcont.
  unfold start_export_task. rewrite Hjob, Hc.
  unfold export_try. cbv zeta. rewrite Job_user_with_export_data, Hu, Hj. fold file0.
  destruct (tar_export viewer_aware w json_data user file0) as [[n c] r].
  simpl in Hr, Hn, Hcont. subst r n c. rewrite Hs.
  unfold set_status, save, record. cbn [fst snd jobs].
  rewrite !lookup_alter_eq, Hjob. reflexivity.
Qed.

(** When the export fails, nothing is saved to [export_data]: the row keeps
    the file it had, and the error is the one logged. *)
Theorem start_export_task_failure_keeps_file (w : World) (job_id : Z) (st : State)
    (job job' : BookwyrmExportJob) (st' : State) (err : exn) :
  jobs st !! job_id = Some job →
  complete job = false →
  export_try DOMAIN viewer_aware w job_id job st = (job', st', Raise err) →
  export_data <$> jobs (start_export_task DOMAIN viewer_aware w job_id st).1 !! job_id
  = Some (export_data (ui_update w job))
  ∧ export_data_saves (trace (start_export_task DOMAIN viewer_aware w job_id st).1)
    = export_data_saves (trace st)
  ∧ logged_errors (trace (start_export_task DOMAIN viewer_aware w job_id st).1)
    = (logged_errors (trace st) ++ [(job_id, err)])%list.
Proof.
  intros Hjob Hc Htry.
  rewrite (start_export_task_run _ _ _ _ _ _ _ _ _ Hjob Hc Htry).
  apply export_try_inv in Htry. cbv zeta in Htry. subst st'.
  unfold set_status, save, record. cbn [fst snd jobs trace]. split_and!.
  - rewrite !lookup_alter_eq, Hjob. reflexivity.
  - unfold export_data_saves. rewrite !omap_app. simpl. by rewrite !app_nil_r.
  - unfold logged_errors. rewrite !omap_app. simpl. by rewrite !app_nil_r.
Qed.

(** When the export succeeds, nothing is logged, and [export_data] is saved
    once. *)
Theorem start_export_task_success_trace (w : World) (job_id : Z) (st : State)
    (job job' : BookwyrmExportJob) (st' : State) :
  jobs st !! job_id = Some job →
  complete job = false →
  export_try DOMAIN viewer_aware w job_id job st = (job', st', Ok ()) →
  logged_errors (trace (start_export_task DOMAIN viewer_aware w job_id st).1)
  = logged_errors (trace st)
  ∧ export_data_saves (trace (start_export_task DOMAIN viewer_aware w job_id st).1)
    = (export_data_saves (trace st) ++ [job_id])%list.
Proof.
  intros Hjob Hc Htry.
  rewrite (start_export_task_run _ _ _ _ _ _ _ _ _ Hjob Hc Htry).
  apply export_try_inv in Htry. cbv zeta in Htry. subst st'.
  unfold set_status, save, record. cbn [fst snd jobs trace]. split.
  - unfold logged_errors. rewrite !omap_app. simpl. by rewrite !app_nil_r.
  - unfold export_data_saves. rewrite !omap_app. simpl. by rewrite !app_nil_r.
Qed.

End TaskMore.

(** The theorems of the last three parts, at the sample instance. *)

Lemma json_export_goals_exact_sample :
  ∃ data,
    json_export_data "example.net" all_editions (world no_faults) alice = Ok data
    ∧ ∃ goals,
        dict_get "goals" data = Some (VList (goal_entry <$> goals))
        ∧ NoDup goals
        ∧ ∀ g, g ∈ goals ↔ g ∈ annualgoals sample_db ∧ goal_user g = user_id alice.
Proof.
  eexists. split; [vm_compute; reflexivity|].
  apply (json_export_goals_exact "example.net" all_editions (world no_faults) alice).
  - reflexivity.
  - vm_compute. reflexivity.
Defined.

Lemma json_export_goals_prefix_sample :
  ∃ data data0,
    json_export_data "example.net" all_editions (world guarded_fail) alice = Ok data
    ∧ json_export_data "example.net" all_editions
        (without_guarded_faults (world guarded_fail)) alice = Ok data0
    ∧ ∃ goals goals0,
        dict_get "goals" data = Some (VList goals)
        ∧ dict_get "goals" data0 = Some (VList goals0)
        ∧ goals `prefix_of` goals0.
Proof.
  eexists _, _. split; [vm_compute; reflexivity|]. split; [vm_compute; reflexivity|].
  apply (json_export_goals_prefix "example.net" all_editions (world guarded_fail) alice).
  - vm_compute. reflexivity.
  - vm_compute. reflexivity.
Defined.

Lemma json_export_saved_lists_sample :
  ∃ data,
    json_export_data "example.net" all_editions (world no_faults) alice = Ok data
    ∧ ∃ saved,
        dict_get "saved_lists" data = Some (VList (VStr <$> saved))
        ∧ ∀ rid, rid ∈ saved
            ↔ ∃ l, l ∈ lists sample_db
                   ∧ (user_id alice, list_id l) ∈ user_saved_lists sample_db
                   ∧ list_remote_id l = rid.
Proof.
  eexists. split; [vm_compute; reflexivity|].
  apply (json_export_saved_lists "example.net" all_editions (world no_faults) alice).
  vm_compute. reflexivity.
Defined.

Lemma book_entry_one_edition_sample :
  ∃ entry,
    book_entry sample_db alice (get_books_for_user all_editions sample_db alice).1
      (mkbook 100 (img "covers/100.jpg") "Emma") = Ok entry
    ∧ ∃ e,
        head (filter (λ e, edition_id e = 100)
                     (get_books_for_user all_editions sample_db alice).1) = Some e
        ∧ dict_get "edition" entry = Some (VDict (row_dict (Edition_values e)))
        ∧ dict_get "authors" entry
          = Some (rows_value (Author_values <$> Edition_authors sample_db e)).
Proof.
  eexists. split; [vm_compute; reflexivity|].
  apply (book_entry_one_edition sample_db alice
           (get_books_for_user all_editions sample_db alice).1
           (mkbook 100 (img "covers/100.jpg") "Emma")).
  vm_compute. reflexivity.
Defined.

Lemma tar_export_query_raises_sample :
  tar_export all_editions (world query_fails) "{}" alice
    {| file_name := "0b1e"; file_content := [] |}
  = ({| file_name := "0b1e";
        file_content :=
          (write_bytes (utf8 "{}")
           :: if decide (truthy (avatar alice))
              then [add_image (avatar alice) (Some "avatar")] else [])%list |},
     Raise DatabaseError).
Proof.
  apply (tar_export_query_raises all_editions (world query_fails) "{}" alice
           {| file_name := "0b1e"; file_content := [] |}); reflexivity.
Defined.

Lemma start_export_task_missing_job_sample :
  start_export_task "example.net" all_editions (world no_faults) 8 (state_of pending_job)
  = (state_of pending_job, Raise DoesNotExist).
Proof.
  apply (start_export_task_missing_job "example.net" all_editions (world no_faults) 8
           (state_of pending_job)).
  vm_compute. reflexivity.
Defined.

Lemma tar_export_images_sample :
  truthy (img "covers/100.jpg")
  ∧ ((img "covers/100.jpg" = avatar alice ∧ @None string = Some "avatar")
     ∨ (@None string = None
        ∧ ∃ e, e ∈ viewer_aware_objects all_editions (db (world no_faults)) alice
               ∧ related (db (world no_faults)) alice e
               ∧ img "covers/100.jpg" = cover (edition_book e))).
Proof.
  apply (tar_export_images all_editions (world no_faults) "{}" alice
           {| file_name := "0b1e"; file_content := [] |}
           (img "covers/100.jpg") None).
  - reflexivity.
  - vm_compute. apply list_elem_of_further, list_elem_of_further, list_elem_of_here.
Defined.

Lemma start_export_task_other_jobs_sample :
  jobs (start_export_task "example.net" all_editions (world no_faults) 7
          (state_of pending_job)).1 !! 8
  = jobs (state_of pending_job) !! 8.
Proof.
  apply (start_export_task_other_jobs "example.net" all_editions (world no_faults) 7
           (state_of pending_job) 8).
  discriminate.
Defined.

Lemma start_export_task_exports_sample :
  ∃ json_data,
    json_export "example.net" all_editions (world guarded_fail) alice = Ok json_data
    ∧ export_data
        <$> jobs (start_export_task "example.net" all_editions (world guarded_fail) 7
                    (state_of pending_job)).1 !! 7
      = Some (Some {| file_name := uuid4 (world guarded_fail);
                      file_content :=
                        archive_of json_data alice
                          (get_books_for_user all_editions
                             (db (world guarded_fail)) alice).1 |}).
Proof.
  apply (start_export_task_exports "example.net" all_editions (world guarded_fail) 7
           (state_of pending_job) pending_job alice).
  - vm_compute. reflexivity.
  - reflexivity.
  - vm_compute. reflexivity.
  - reflexivity.
  - reflexivity.
  - reflexivity.
Defined.

Lemma start_export_task_failure_keeps_file_sample :
  export_data
    <$> jobs (start_export_task "example.net" all_editions (world archive_fails) 7
                (state_of pending_job)).1 !! 7
  = Some (export_data (ui_update (world archive_fails) pending_job))
  ∧ export_data_saves
      (trace (start_export_task "example.net" all_editions (world archive_fails) 7
                (state_of pending_job)).1)
    = export_data_saves (trace (state_of pending_job))
  ∧ logged_errors
      (trace (start_export_task "example.net" all_editions (world archive_fails) 7
                (state_of pending_job)).1)
    = (logged_errors (trace (state_of pending_job)) ++ [(7, OSError)])%list.
Proof.
  eapply (start_export_task_failure_keeps_file "example.net" all_editions
            (world archive_fails) 7 (state_of pending_job) pending_job).
  - vm_compute. reflexivity.
  - reflexivity.
  - vm_compute. reflexivity.
Defined.

Lemma start_export_task_success_trace_sample :
  logged_errors
    (trace (start_export_task "example.net" all_editions (world no_faults) 7
              (state_of pending_job)).1)
  = logged_errors (trace (state_of pending_job))
  ∧ export_data_saves
      (trace (start_export_task "example.net" all_editions (world no_faults) 7
                (state_of pending_job)).1)
    = (export_data_saves (trace (state_of pending_job)) ++ [7])%list.
Proof.
  eapply (start_export_task_success_trace "example.net" all_editions
            (world no_faults) 7 (state_of pending_job) pending_job).
  - vm_compute. reflexivity.
  - reflexivity.
  - vm_compute. reflexivity.
Defined.

Lemma start_export_task_success_updates_sample :
  status_updates
    (trace (start_export_task "example.net" all_editions (world no_faults) 7
              (state_of pending_job)).1)
  = (status_updates (trace (state_of pending_job)) ++ ["complete"])%list.
Proof.
  eapply (start_export_task_success_updates "example.net" all_editions
            (world no_faults) 7 (state_of pending_job) pending_job).
  - vm_compute. reflexivity.
  - reflexivity.
  - vm_compute. reflexivity.
Defined.
